(** * The session-and-turn protocol of the research chat client

    A shallow embedding of [chatbot-frontend/src/App.js]: the React
    component [App], its state ([input], [messages], [turnId],
    [chatSessionId], [loading]), the click handler [changeEvent] and the
    mount effect [startSession].

    Conventions of the embedding.
    - A JavaScript string is the list of its UTF-16 code units.
    - A JavaScript value is a term of [value]; the body of an HTTP reply is
      given already parsed ([None] when [response.json()] rejects).
    - [turnId] is a JavaScript number that only ever holds integers; it is
      modelled as a [Z] (the increment is exact below 2^53).
    - An [await] is a point where the environment supplies the outcome of
      the pending [fetch]; handlers take that outcome as an argument.
    - Everything observable that a handler does besides updating the state
      (requests, console output, alerts) is recorded as a list of
      [effect]s, in program order. *)

From Stdlib Require Import String Ascii ZArith NArith Bool Lia List.
From Stdlib Require Import DecimalString DecimalPos DecimalZ Floats.SpecFloat.
Import ListNotations.

Local Open Scope Z_scope.

(** ** JavaScript strings *)

Module JsString.

Definition code_unit := N.
Definition jsstring := list code_unit.

(** A literal of the source, given in ASCII. *)
Definition js (s : string) : jsstring :=
  map N_of_ascii (list_ascii_of_string s).

Definition eqb (a b : jsstring) : bool :=
  if list_eq_dec N.eq_dec a b then true else false.

(** ECMAScript [WhiteSpace] and [LineTerminator] code points, the ones
    that [String.prototype.trim] strips. *)
Definition is_white_space (c : code_unit) : bool :=
  ((c =? 0x0009) || (c =? 0x000A) || (c =? 0x000B) || (c =? 0x000C) ||
   (c =? 0x000D) || (c =? 0x0020) || (c =? 0x00A0) || (c =? 0x1680) ||
   ((0x2000 <=? c) && (c <=? 0x200A)) ||
   (c =? 0x2028) || (c =? 0x2029) || (c =? 0x202F) || (c =? 0x205F) ||
   (c =? 0x3000) || (c =? 0xFEFF))%N.

Fixpoint trimStart (s : jsstring) : jsstring :=
  match s with
  | c :: s' => if is_white_space c then trimStart s' else s
  | [] => []
  end.

Definition trimEnd (s : jsstring) : jsstring :=
  rev (trimStart (rev s)).

(** [String.prototype.trim] *)
Definition trim (s : jsstring) : jsstring :=
  trimEnd (trimStart s).

(** [Number.prototype.toString] on an integer. *)
Definition toString (n : Z) : jsstring :=
  js (NilZero.string_of_int (Z.to_int n)).

End JsString.
Export JsString.

(** ** JavaScript values

    The values that [JSON.parse] can produce, and [undefined]. A number is
    an IEEE 754 binary64; an object is the list of its own properties. *)

#[local] Set Warnings "-register-all".

Inductive value : Type :=
| Undefined
| Null
| Bool (b : bool)
| Number (x : spec_float)
| Str (s : jsstring)
| Arr (items : list value)
| Obj (props : list (jsstring * value)).

(** Own-property lookup in the property list of an object. *)
Fixpoint lookup (k : jsstring) (props : list (jsstring * value)) : option value :=
  match props with
  | [] => None
  | (k', v) :: rest => if JsString.eqb k k' then Some v else lookup k rest
  end.

(** What the handlers can throw. *)
Inductive error : Type :=
| NetworkError   (* [fetch] rejects *)
| SyntaxError    (* [response.json()] rejects: the body is not JSON *)
| TypeError.     (* a property is read on [null] or [undefined] *)

Inductive result (A : Type) : Type :=
| Ok (a : A)
| Throw (e : error).
Arguments Ok {A} a.
Arguments Throw {A} e.

(** [v.k] for a property name [k] that no built-in prototype defines
    (the handlers read only [response] and [chat_session_id]): reading
    on [null] or [undefined] throws, an object yields its own property or
    [undefined], every other value yields [undefined]. *)
Definition get_prop (v : value) (k : jsstring) : result value :=
  match v with
  | Undefined | Null => Throw TypeError
  | Obj props =>
      match lookup k props with
      | Some x => Ok x
      | None => Ok Undefined
      end
  | Bool _ | Number _ | Str _ | Arr _ => Ok Undefined
  end.

(** ** The environment: HTTP and the page URL *)

(** The [Response] that a resolved [fetch] yields. [body] is the result
    of parsing the body text as JSON, [None] when it does not parse. *)
Record Response : Type := mkResponse {
  status : Z;
  body : option value
}.

(** [response.ok] *)
Definition ok (r : Response) : bool := (200 <=? status r) && (status r <=? 299).

(** How a pending [fetch] settles. *)
Inductive fetch_result : Type :=
| Rejected
| Resolved (response : Response).

(** The second argument of [fetch]. [body_json] is the object handed to
    [JSON.stringify]; the serialisation itself is not modelled. *)
Record RequestInit : Type := mkRequestInit {
  method : jsstring;
  headers : list (jsstring * jsstring);
  body_json : value
}.

(** [window.location.search], as the list of its name/value pairs. *)
Record Env : Type := mkEnv {
  location_search : list (jsstring * jsstring)
}.

(** [URLSearchParams.prototype.get]: the first value of that name, or
    [null]. *)
Fixpoint URLSearchParams_get (params : list (jsstring * jsstring))
    (name : jsstring) : value :=
  match params with
  | [] => Null
  | (k, v) :: rest =>
      if JsString.eqb k name then Str v else URLSearchParams_get rest name
  end.

(** ** Component state and effects *)

Record Message : Type := mkMessage {
  sender : jsstring;
  text : value
}.

(** The five [useState] cells of [App]. *)
Record State : Type := mkState {
  input : jsstring;
  messages : list Message;
  turnId : Z;
  chatSessionId : value;
  loading : bool
}.

(** The initial values given to [useState]. *)
Definition initial : State :=
  {| input := js "";
     messages := [];
     turnId := 1;
     chatSessionId := Null;
     loading := true |}.

Inductive effect : Type :=
| Fetch (url : jsstring) (init : RequestInit)
| ConsoleLog (label : jsstring) (arg : value)
| ConsoleError (label : jsstring) (err : error)
| Alert (msg : jsstring).

(** ** Handler programs

    A handler body is a program over the component state that records
    its effects and may throw. *)

Module Prog.

Definition prog (A : Type) : Type := State -> State * list effect * result A.

Definition ret {A} (a : A) : prog A := fun st => (st, [], Ok a).

Definition bind {A B} (m : prog A) (k : A -> prog B) : prog B :=
  fun st =>
    match m st with
    | (st1, e1, Ok a) =>
        match k a st1 with
        | (st2, e2, r) => (st2, e1 ++ e2, r)
        end
    | (st1, e1, Throw err) => (st1, e1, Throw err)
    end.

Definition lift {A} (r : result A) : prog A := fun st => (st, [], r).

Definition emit (e : effect) : prog unit := fun st => (st, [e], Ok tt).

(** [try { body } catch (error) { handler(error) }] *)
Definition try_catch {A} (body : prog A) (handler : error -> prog A) : prog A :=
  fun st =>
    match body st with
    | (st1, e1, Ok a) => (st1, e1, Ok a)
    | (st1, e1, Throw err) =>
        match handler err st1 with
        | (st2, e2, r) => (st2, e1 ++ e2, r)
        end
    end.

(** [try { body } finally { final }], for a [final] that does not throw
    out of itself: the outcome of [body] is kept. *)
Definition finally {A} (body : prog A) (final : prog unit) : prog A :=
  fun st =>
    match body st with
    | (st1, e1, r) =>
        match final st1 with
        | (st2, e2, Ok _) => (st2, e1 ++ e2, r)
        | (st2, e2, Throw err) => (st2, e1 ++ e2, Throw err)
        end
    end.

(** State of the component and effects after running a handler. *)
Definition exec {A} (m : prog A) (st : State) : State * list effect :=
  fst (m st).

End Prog.
Import Prog.

Declare Scope prog_scope.
Delimit Scope prog_scope with prog.
Notation "x <- m ;; k" := (bind m (fun x => k))
  (at level 61, m at next level, right associativity) : prog_scope.
Notation "m ;; k" := (bind m (fun _ => k))
  (at level 61, right associativity) : prog_scope.

Local Open Scope prog_scope.

(** ** The component [App] *)

(** Reading a state cell, as a handler sees it through its closure. *)
Definition read {A} (cell : State -> A) : prog A := fun st => (st, [], Ok (cell st)).

Definition setInput (v : jsstring) : prog unit :=
  fun st => (mkState v (messages st) (turnId st) (chatSessionId st) (loading st), [], Ok tt).

Definition setMessages (f : list Message -> list Message) : prog unit :=
  fun st => (mkState (input st) (f (messages st)) (turnId st) (chatSessionId st) (loading st), [], Ok tt).

Definition setTurnId (f : Z -> Z) : prog unit :=
  fun st => (mkState (input st) (messages st) (f (turnId st)) (chatSessionId st) (loading st), [], Ok tt).

Definition setChatSessionId (v : value) : prog unit :=
  fun st => (mkState (input st) (messages st) (turnId st) v (loading st), [], Ok tt).

Definition setLoading (b : bool) : prog unit :=
  fun st => (mkState (input st) (messages st) (turnId st) (chatSessionId st) b, [], Ok tt).

(** [await fetch(url, init)], split at the suspension: the call issues
    the request, the await yields the response or throws. *)
Definition fetch_call (url : jsstring) (init : RequestInit) : prog unit :=
  emit (Fetch url init).

Definition fetch_await (r : fetch_result) : prog Response :=
  lift match r with
       | Rejected => Throw NetworkError
       | Resolved response => Ok response
       end.

Definition fetch (r : fetch_result) (url : jsstring) (init : RequestInit) : prog Response :=
  fetch_call url init ;; fetch_await r.

(** [await response.json()] *)
Definition json (response : Response) : prog value :=
  lift match body response with
       | Some data => Ok data
       | None => Throw SyntaxError
       end.

(** [const prolificId = urlParams.get('PROLIFIC_PID')] and
    [const sessionId = urlParams.get('SESSION_ID')] *)
Definition prolificId (env : Env) : value :=
  URLSearchParams_get (location_search env) (js "PROLIFIC_PID").

Definition sessionId (env : Env) : value :=
  URLSearchParams_get (location_search env) (js "SESSION_ID").

Definition json_headers : list (jsstring * jsstring) :=
  [(js "Content-Type", js "application/json")].

Definition chat_url : jsstring := js "http://127.0.0.1:8000/chat".
Definition session_start_url : jsstring := js "http://127.0.0.1:8000/session/start".

(** The object that [changeEvent] serialises as the request body. *)
Definition chat_body (input : jsstring) (turnId : Z) : value :=
  Obj [(js "user_message", Str input);
       (js "client_turn_id", Str (toString turnId));
       (js "chat_session_id", Str (js "XYZ"))].

Definition chat_request (input : jsstring) (turnId : Z) : effect :=
  Fetch chat_url
    {| method := js "POST"; headers := json_headers; body_json := chat_body input turnId |}.

Definition userMessage (input : jsstring) : Message :=
  {| sender := js "user"; text := Str input |}.

Definition botMessage (reply : value) : Message :=
  {| sender := js "bot"; text := reply |}.

Definition errorMessage : Message :=
  {| sender := js "error"; text := Str (js "Error sending message.") |}.

(** [changeEvent], the [onClick] handler of the send button; [r] is how
    its [fetch] settles. *)
Definition changeEvent (env : Env) (r : fetch_result) : prog unit :=
  let prolificId := prolificId env in
  let sessionId := sessionId env in
  input <- read input ;;
  turnId <- read turnId ;;
  if JsString.eqb (trim input) (js "") then ret tt
  else
    setMessages (fun prev => prev ++ [userMessage input]) ;;
    try_catch
      (response <- fetch r chat_url
                     {| method := js "POST";
                        headers := json_headers;
                        body_json :=
                          Obj [(js "user_message", Str input);
                               (js "client_turn_id", Str (toString turnId));
                               (js "chat_session_id", Str (js "XYZ"))] |} ;;
       data <- json response ;;
       reply <- lift (get_prop data (js "response")) ;;
       setMessages (fun prevMessages => prevMessages ++ [botMessage reply]) ;;
       setTurnId (fun prevTurnId => prevTurnId + 1) ;;
       setInput (js ""))
      (fun error =>
         setMessages (fun prev => prev ++ [errorMessage]) ;;
         emit (ConsoleError (js "Error sending message:") error)).

(** [handleEndChat] *)
Definition handleEndChat : prog unit :=
  emit (Alert (js "redirection to survey soon.")).

(** The object that [startSession] serialises as the request body. *)
Definition session_start_body : value :=
  Obj [(js "pid", Str (js "123456789"));
       (js "study_id", Str (js "study_001"));
       (js "prolific_session_id", Str (js "sessionId"));
       (js "qr_pre", Str (js "qr_001"));
       (js "experiment_id", Str (js "exp_001"))].

Definition session_start_request : effect :=
  Fetch session_start_url
    {| method := js "POST"; headers := json_headers; body_json := session_start_body |}.

(** [startSession], run once by [useEffect] when the component mounts;
    [r] is how its [fetch] settles. *)
Definition startSession (env : Env) (r : fetch_result) : prog unit :=
  let prolificId := prolificId env in
  let sessionId := sessionId env in
  finally
    (try_catch
       (response <- fetch r session_start_url
                      {| method := js "POST";
                         headers := json_headers;
                         body_json :=
                           Obj [(js "pid", Str (js "123456789"));
                                (js "study_id", Str (js "study_001"));
                                (js "prolific_session_id", Str (js "sessionId"));
                                (js "qr_pre", Str (js "qr_001"));
                                (js "experiment_id", Str (js "exp_001"))] |} ;;
        data <- json response ;;
        emit (ConsoleLog (js "Session started:") data) ;;
        id <- lift (get_prop data (js "chat_session_id")) ;;
        setChatSessionId id)
       (fun error =>
          emit (ConsoleError (js "Failed to start session:") error)))
    (setLoading false).

(** [onChange] of the text field: [setInput(e.target.value)] *)
Definition onChange (v : jsstring) : prog unit := setInput v.

(** [disabled={!input.trim()}] on the send button: the empty string is
    the only falsy string. *)
Definition button_disabled (st : State) : bool :=
  JsString.eqb (trim (input st)) (js "").

(** ** Executions

    Between the call of a [fetch] and the moment it settles the browser
    may run other handlers. An execution is therefore a sequence of
    [action]s, where each asynchronous handler contributes two: the part
    before its [await] and the part after it. *)

(** [changeEvent] up to its [await]; the result tells whether a request
    is now pending. *)
Definition changeEvent_call (env : Env) : prog bool :=
  input <- read input ;;
  turnId <- read turnId ;;
  if JsString.eqb (trim input) (js "") then ret false
  else
    setMessages (fun prev => prev ++ [userMessage input]) ;;
    fetch_call chat_url
      {| method := js "POST";
         headers := json_headers;
         body_json :=
           Obj [(js "user_message", Str input);
                (js "client_turn_id", Str (toString turnId));
                (js "chat_session_id", Str (js "XYZ"))] |} ;;
    ret true.

(** [changeEvent] from its [await] on. *)
Definition changeEvent_resume (r : fetch_result) : prog unit :=
  try_catch
    (response <- fetch_await r ;;
     data <- json response ;;
     reply <- lift (get_prop data (js "response")) ;;
     setMessages (fun prevMessages => prevMessages ++ [botMessage reply]) ;;
     setTurnId (fun prevTurnId => prevTurnId + 1) ;;
     setInput (js ""))
    (fun error =>
       setMessages (fun prev => prev ++ [errorMessage]) ;;
       emit (ConsoleError (js "Error sending message:") error)).

(** [startSession] up to its [await]. *)
Definition startSession_call (env : Env) : prog unit :=
  fetch_call session_start_url
    {| method := js "POST"; headers := json_headers; body_json := session_start_body |}.

(** [startSession] from its [await] on. *)
Definition startSession_resume (r : fetch_result) : prog unit :=
  finally
    (try_catch
       (response <- fetch_await r ;;
        data <- json response ;;
        emit (ConsoleLog (js "Session started:") data) ;;
        id <- lift (get_prop data (js "chat_session_id")) ;;
        setChatSessionId id)
       (fun error =>
          emit (ConsoleError (js "Failed to start session:") error)))
    (setLoading false).

Inductive action : Type :=
| Mount                                  (* [useEffect] calls [startSession] *)
| SessionSettled (r : fetch_result)      (* the session-start request settles *)
| Change (v : jsstring)                  (* the user edits the text field *)
| Click                                  (* the user presses the send button *)
| ChatSettled (r : fetch_result)         (* a chat request settles *)
| EndChat.                               (* the user presses End Chat *)

Definition step (env : Env) (a : action) : prog unit :=
  match a with
  | Mount => startSession_call env
  | SessionSettled r => startSession_resume r
  | Change v => onChange v
  | Click => changeEvent_call env ;; ret tt
  | ChatSettled r => changeEvent_resume r
  | EndChat => handleEndChat
  end.

Fixpoint run (env : Env) (actions : list action) : prog unit :=
  match actions with
  | [] => ret tt
  | a :: rest => step env a ;; run env rest
  end.

(** One exchange run to completion: the user types [v], presses send, and
    the request settles with [r] before anything else happens. *)
Definition exchange (env : Env) (v : jsstring) (r : fetch_result) : prog unit :=
  onChange v ;; changeEvent env r.

Fixpoint exchanges (env : Env) (l : list (jsstring * fetch_result)) : prog unit :=
  match l with
  | [] => ret tt
  | (v, r) :: rest => exchange env v r ;; exchanges env rest
  end.

(** Pressing send [n] times on whatever the field holds, each request
    settling as the list says. *)
Fixpoint clicks (env : Env) (rs : list fetch_result) : prog unit :=
  match rs with
  | [] => ret tt
  | r :: rest => changeEvent env r ;; clicks env rest
  end.

(** ** Vocabulary of the statements *)

(** The settled request makes the [try] block throw: the fetch rejects
    (network error), the body is not JSON, or the parsed body is [null]
    (or [undefined]), on which a property cannot be read. *)
Definition throws (r : fetch_result) : bool :=
  match r with
  | Rejected => true
  | Resolved response =>
      match body response with
      | None => true
      | Some Null | Some Undefined => true
      | Some _ => false
      end
  end.

(** The parsed body is an object that has the property [k]. *)
Definition has_property (k : jsstring) (r : fetch_result) : bool :=
  match r with
  | Rejected => false
  | Resolved response =>
      match body response with
      | Some (Obj props) =>
          match lookup k props with Some _ => true | None => false end
      | _ => false
      end
  end.

Definition whitespace_only (s : jsstring) : bool := forallb is_white_space s.

(** The value of [data.k] once the request has settled with [r], or the
    error thrown on the way to it. *)
Definition property_of (k : jsstring) (r : fetch_result) : result value :=
  match r with
  | Rejected => Throw NetworkError
  | Resolved response =>
      match body response with
      | None => Throw SyntaxError
      | Some data => get_prop data k
      end
  end.

(** The envelope as the specification words it: the third field carries
    the session identifier held by the session manager. *)
Definition envelope_of_spec (text : jsstring) (currentTurn : Z) (sessionId : value) : value :=
  Obj [(js "user_message", Str text);
       (js "client_turn_id", Str (toString currentTurn));
       (js "chat_session_id", sessionId)].

Definition is_fetch (e : effect) : bool :=
  match e with Fetch _ _ => true | _ => false end.

(** What [startSession] writes to the console before it stores the
    identifier: the parsed body, whenever there is one. *)
Definition started_log (r : fetch_result) : list effect :=
  match r with
  | Rejected => []
  | Resolved response =>
      match body response with
      | Some data => [ConsoleLog (js "Session started:") data]
      | None => []
      end
  end.

Definition state_after {A} (m : prog A) (st : State) : State := fst (exec m st).
Definition effects_of {A} (m : prog A) (st : State) : list effect := snd (exec m st).

(** The text of the bot Message that a settled request produces. *)
Definition reply_text (r : fetch_result) : value :=
  match property_of (js "response") r with
  | Ok reply => reply
  | Throw _ => Undefined
  end.

(** A page opened from the study platform. *)
Definition study_page : Env :=
  {| location_search := [(js "PROLIFIC_PID", js "p42"); (js "SESSION_ID", js "s7")] |}.

(** ** The view

    What [App] returns: the tree of elements described by its JSX. An
    event handler handed to an element is recorded as the [action] that
    the event triggers. *)

Inductive attr : Type :=
| AStr (s : jsstring)
| ABool (b : bool)
| ANum (n : Z)
| OnClick (a : action)
| OnChangeValue (k : jsstring -> action).   (* [(e) => ... e.target.value ...] *)

Inductive node : Type :=
| Element (tag : jsstring) (attrs : list (jsstring * attr)) (children : list node)
| Text (s : jsstring)        (* literal text between tags *)
| Expr (v : value)           (* a braced expression that yields a value *)
| Items (l : list node).     (* a braced expression that yields an array of elements *)

(** The two avatars and the label of the send button: U+1F464, U+1F916
    and U+27A4, in UTF-16. *)
Definition bust : jsstring := [0xD83D; 0xDC64]%N.
Definition robot : jsstring := [0xD83E; 0xDD16]%N.
Definition arrow : jsstring := [0x27A4]%N.

(** [Array.prototype.map] with a callback that takes the element and its
    index; [index] is the index of the first element of [l]. *)
Fixpoint map_index {A B : Type} (f : A -> Z -> B) (l : list A) (index : Z) : list B :=
  match l with
  | [] => []
  | x :: rest => f x index :: map_index f rest (index + 1)
  end.

(** The callback of [messages.map]: one row of the chat box. *)
Definition message_row (m : Message) (index : Z) : node :=
  Element (js "div")
    [(js "key", ANum index);
     (js "className", AStr (js "message " ++ sender m))]
    [Element (js "div") [(js "className", AStr (js "avatar"))]
       [Expr (Str (if JsString.eqb (sender m) (js "user") then bust else robot))];
     Element (js "div") [(js "className", AStr (js "message"))]
       [Expr (text m)]].

(** The component function [App], as a function of its state. *)
Definition App (env : Env) (st : State) : node :=
  let prolificId := prolificId env in
  let sessionId := sessionId env in
  Element (js "div") [(js "className", AStr (js "app"))]
    [Element (js "div") [(js "className", AStr (js "main"))]
       [Element (js "div") [(js "className", AStr (js "chat-header"))]
          [Element (js "h3") [] [Text (js "Research Chat")];
           Element (js "button")
             [(js "className", AStr (js "end-chat-btn")); (js "onClick", OnClick EndChat)]
             [Text (js "End Chat")]];
        Element (js "div") [(js "className", AStr (js "chat-box"))]
          [(if (Z.of_nat (length (messages st)) =? 0)
            then Element (js "div") [(js "className", AStr (js "empty-state"))]
                   [Element (js "h2") [] [Text (js "How can I help you today?")]]
            else Expr (Bool false));
           Items (map_index message_row (messages st) 0)];
        Element (js "div") [(js "className", AStr (js "input-area"))]
          [Element (js "input")
             [(js "type", AStr (js "text"));
              (js "placeholder", AStr (js "Message chatbot..."));
              (js "value", AStr (input st));
              (js "onChange", OnChangeValue Change)]
             [];
           Element (js "button")
             [(js "disabled", ABool (JsString.eqb (trim (input st)) (js "")));
              (js "onClick", OnClick Click)]
             [Text arrow]]]].

(** The node and everything below it, in document order. *)
Fixpoint nodes (n : node) : list node :=
  n :: match n with
       | Element _ _ children =>
           (fix below (l : list node) : list node :=
              match l with
              | [] => []
              | c :: rest => nodes c ++ below rest
              end) children
       | Items l =>
           (fix below (l : list node) : list node :=
              match l with
              | [] => []
              | c :: rest => nodes c ++ below rest
              end) l
       | Text _ | Expr _ => []
       end.

Fixpoint attr_lookup (name : jsstring) (attrs : list (jsstring * attr)) : option attr :=
  match attrs with
  | [] => None
  | (k, a) :: rest => if JsString.eqb k name then Some a else attr_lookup name rest
  end.

Definition attr_of (name : jsstring) (n : node) : option attr :=
  match n with
  | Element _ attrs _ => attr_lookup name attrs
  | _ => None
  end.

Definition has_attr (name : jsstring) (n : node) : bool :=
  match attr_of name n with Some _ => true | None => false end.

Definition has_class (c : jsstring) (n : node) : bool :=
  match attr_of (js "className") n with
  | Some (AStr s) => JsString.eqb s c
  | _ => false
  end.

(** The elements of class [c] in a tree, like [getElementsByClassName]
    for a single class name. *)
Definition by_class (c : jsstring) (n : node) : list node :=
  filter (has_class c) (nodes n).

(** ** Counting in transcripts and traces *)

Definition from (who : jsstring) (m : Message) : bool := JsString.eqb (sender m) who.

(** The texts of the user Messages of a transcript, in order. *)
Definition user_texts (ms : list Message) : list value :=
  map text (filter (from (js "user")) ms).

(** The [user_message] fields of the chat requests of a trace, in order. *)
Fixpoint sent_texts (es : list effect) : list value :=
  match es with
  | [] => []
  | Fetch url init :: rest =>
      if JsString.eqb url chat_url then
        match get_prop (body_json init) (js "user_message") with
        | Ok v => v :: sent_texts rest
        | Throw _ => sent_texts rest
        end
      else sent_texts rest
  | _ :: rest => sent_texts rest
  end.

(** The [client_turn_id] fields of the chat requests of a trace. *)
Fixpoint sent_turns (es : list effect) : list value :=
  match es with
  | [] => []
  | Fetch url init :: rest =>
      if JsString.eqb url chat_url then
        match get_prop (body_json init) (js "client_turn_id") with
        | Ok v => v :: sent_turns rest
        | Throw _ => sent_turns rest
        end
      else sent_turns rest
  | _ :: rest => sent_turns rest
  end.

(** A Message as [changeEvent] makes them: a user Message whose text is
    a string that is not blank, a bot Message, or the error notice. *)
Definition well_formed (m : Message) : bool :=
  if JsString.eqb (sender m) (js "user") then
    match text m with
    | Str s => negb (JsString.eqb (trim s) (js ""))
    | _ => false
    end
  else if JsString.eqb (sender m) (js "bot") then true
  else if JsString.eqb (sender m) (js "error") then
    match text m with
    | Str s => JsString.eqb s (js "Error sending message.")
    | _ => false
    end
  else false.

(** ** Earlier revisions

    The first [App.js], in which the bot is local, and the page
    [app/web/page.tsx] built from it. *)

Module Stub.

Record State : Type := mkState {
  input : jsstring;
  messages : list Message
}.

Definition changeEvent (st : State) : State :=
  if JsString.eqb (trim (input st)) (js "") then st
  else
    let userMessage := {| sender := js "user"; text := Str (input st) |} in
    let botMessage := {| sender := js "bot"; text := Str (js "I am a bot!") |} in
    {| input := js ""; messages := messages st ++ [userMessage; botMessage] |}.

End Stub.

Module Web.

(** [handleSend], on the one state cell of [ChatPage]. *)
Definition handleSend (text : jsstring) (messages : list Message) : list Message :=
  let userMessage := {| sender := js "user"; text := Str text |} in
  let botMessage := {| sender := js "bot"; text := Str (js "I am a bot!") |} in
  messages ++ [userMessage; botMessage].

End Web.

Definition is_session_settled (a : action) : bool :=
  match a with SessionSettled _ => true | _ => false end.

(** The two state cells that the first revision already had. *)
Definition to_stub (st : State) : Stub.State :=
  {| Stub.input := input st; Stub.messages := messages st |}.

(** * Properties *)

Arguments js : simpl never.
Arguments trim : simpl never.
Arguments toString : simpl never.
Arguments JsString.eqb : simpl never.

(** ** Strings *)

Lemma eqb_eq (a b : jsstring) : JsString.eqb a b = true <-> a = b.
Proof.
  unfold JsString.eqb. destruct (list_eq_dec N.eq_dec a b); split; congruence.
Qed.

Lemma eqb_neq (a b : jsstring) : JsString.eqb a b = false <-> a <> b.
Proof.
  unfold JsString.eqb. destruct (list_eq_dec N.eq_dec a b); split; congruence.
Qed.

Lemma trimStart_nil (s : jsstring) : trimStart s = [] <-> whitespace_only s = true.
Proof.
  unfold whitespace_only.
  induction s as [|c s IH]; simpl; [tauto|].
  destruct (is_white_space c); simpl; [exact IH|].
  split; discriminate.
Qed.

Lemma whitespace_only_rev (s : jsstring) : whitespace_only (rev s) = whitespace_only s.
Proof.
  unfold whitespace_only.
  induction s as [|c s IH]; simpl; [reflexivity|].
  rewrite forallb_app, IH. simpl. rewrite andb_true_r. apply andb_comm.
Qed.

(** What is left after [trimStart] is empty or starts with a character
    that is not white space. *)
Lemma trimStart_head (s : jsstring) :
  trimStart s = [] \/ exists c t, trimStart s = c :: t /\ is_white_space c = false.
Proof.
  induction s as [|c s IH]; simpl; [now left|].
  destruct (is_white_space c) eqn:E; [exact IH|].
  right. now exists c, s.
Qed.

Lemma trim_nil (s : jsstring) : trim s = [] <-> whitespace_only s = true.
Proof.
  unfold trim, trimEnd. split.
  - intros H.
    assert (H1 : trimStart (rev (trimStart s)) = []).
    { rewrite <- (rev_involutive (trimStart _)), H. reflexivity. }
    apply trimStart_nil in H1. rewrite whitespace_only_rev in H1.
    destruct (trimStart_head s) as [E | (c & t & E & Hc)].
    + now apply trimStart_nil.
    + rewrite E in H1. unfold whitespace_only in H1. simpl in H1.
      rewrite Hc in H1. discriminate.
  - intros H. apply trimStart_nil in H. rewrite H. reflexivity.
Qed.

Lemma blank_test (s : jsstring) :
  JsString.eqb (trim s) (js "") = true <-> whitespace_only s = true.
Proof. rewrite eqb_eq. apply trim_nil. Qed.

Lemma nonblank_test (s : jsstring) :
  trim s <> [] -> JsString.eqb (trim s) (js "") = false.
Proof. intros H. now apply eqb_neq. Qed.

(** ** Settled requests *)

Lemma throws_iff_error (k : jsstring) (r : fetch_result) :
  throws r = true <-> exists e, property_of k r = Throw e.
Proof.
  destruct r as [|[st [data|]]]; simpl; [split; eauto| |split; eauto].
  destruct data; simpl; try destruct (lookup k props);
    split; intros H; try discriminate; eauto;
    destruct H as [? H]; discriminate.
Qed.

Lemma returns_iff_value (k : jsstring) (r : fetch_result) :
  throws r = false <-> exists v, property_of k r = Ok v.
Proof.
  destruct r as [|[st [data|]]]; simpl;
    try (split; intros H; [discriminate | destruct H as [? H]; discriminate]).
  destruct data; simpl; try destruct (lookup k props);
    split; intros H; try discriminate; eauto;
    destruct H as [? H]; discriminate.
Qed.

(** ** What one call of [changeEvent] does *)

Section ChangeEvent.

Variable env : Env.

Lemma changeEvent_blank (r : fetch_result) (st : State) :
  trim (input st) = [] -> changeEvent env r st = (st, [], Ok tt).
Proof.
  intros H. unfold changeEvent, bind, read, ret.
  replace (JsString.eqb (trim (input st)) (js "")) with true; [reflexivity|].
  symmetry. now apply eqb_eq.
Qed.

Lemma changeEvent_ok (r : fetch_result) (st : State) (reply : value) :
  trim (input st) <> [] ->
  property_of (js "response") r = Ok reply ->
  changeEvent env r st =
    ({| input := js "";
        messages := messages st ++ [userMessage (input st); botMessage reply];
        turnId := turnId st + 1;
        chatSessionId := chatSessionId st;
        loading := loading st |},
     [chat_request (input st) (turnId st)],
     Ok tt).
Proof.
  intros H Hr. unfold changeEvent, bind, read, ret.
  rewrite (nonblank_test _ H).
  destruct r as [|[s [data|]]]; simpl in Hr; try discriminate.
  cbn. rewrite Hr. cbn. rewrite <- app_assoc. reflexivity.
Qed.

Lemma changeEvent_throw (r : fetch_result) (st : State) (e : error) :
  trim (input st) <> [] ->
  property_of (js "response") r = Throw e ->
  changeEvent env r st =
    ({| input := input st;
        messages := messages st ++ [userMessage (input st); errorMessage];
        turnId := turnId st;
        chatSessionId := chatSessionId st;
        loading := loading st |},
     [chat_request (input st) (turnId st);
      ConsoleError (js "Error sending message:") e],
     Ok tt).
Proof.
  intros H Hr. unfold changeEvent, bind, read, ret.
  rewrite (nonblank_test _ H).
  destruct r as [|[s [data|]]]; simpl in Hr.
  - injection Hr as <-. cbn. rewrite <- app_assoc. reflexivity.
  - cbn. rewrite Hr. cbn. rewrite <- app_assoc. reflexivity.
  - injection Hr as <-. cbn. rewrite <- app_assoc. reflexivity.
Qed.

End ChangeEvent.

(** ** The two halves of the asynchronous handlers *)

Ltac unfold_prog :=
  unfold try_catch, finally, bind, ret, lift, emit, read, fetch, fetch_call,
    fetch_await, json, setInput, setMessages, setTurnId, setChatSessionId,
    setLoading; cbn.


Lemma changeEvent_call_spec (env : Env) (st : State) :
  changeEvent_call env st =
    if JsString.eqb (trim (input st)) (js "") then (st, [], Ok false)
    else ({| input := input st;
             messages := messages st ++ [userMessage (input st)];
             turnId := turnId st;
             chatSessionId := chatSessionId st;
             loading := loading st |},
          [chat_request (input st) (turnId st)],
          Ok true).
Proof.
  unfold changeEvent_call, bind, read, ret.
  destruct (JsString.eqb (trim (input st)) (js "")); reflexivity.
Qed.

Lemma changeEvent_resume_spec (r : fetch_result) (st : State) :
  changeEvent_resume r st =
    match property_of (js "response") r with
    | Ok reply =>
        ({| input := js "";
            messages := messages st ++ [botMessage reply];
            turnId := turnId st + 1;
            chatSessionId := chatSessionId st;
            loading := loading st |}, [], Ok tt)
    | Throw e =>
        ({| input := input st;
            messages := messages st ++ [errorMessage];
            turnId := turnId st;
            chatSessionId := chatSessionId st;
            loading := loading st |},
         [ConsoleError (js "Error sending message:") e], Ok tt)
    end.
Proof.
  unfold changeEvent_resume.
  destruct r as [|[s [data|]]]; unfold_prog; try reflexivity.
  destruct (get_prop data (js "response")); reflexivity.
Qed.

Lemma changeEvent_split (env : Env) (r : fetch_result) (st : State) :
  changeEvent env r st =
    (pending <- changeEvent_call env ;;
     if pending : bool then changeEvent_resume r else ret tt) st.
Proof.
  unfold bind at 1. rewrite changeEvent_call_spec.
  unfold changeEvent, bind, read, ret.
  destruct (JsString.eqb (trim (input st)) (js "")); [reflexivity|].
  rewrite changeEvent_resume_spec.
  destruct r as [|[s [data|]]]; unfold_prog; try rewrite <- app_assoc; try reflexivity.
  destruct (get_prop data (js "response")); cbn; rewrite <- app_assoc; reflexivity.
Qed.

Lemma startSession_resume_spec (r : fetch_result) (st : State) :
  startSession_resume r st =
    match property_of (js "chat_session_id") r with
    | Ok id =>
        ({| input := input st;
            messages := messages st;
            turnId := turnId st;
            chatSessionId := id;
            loading := false |},
         started_log r, Ok tt)
    | Throw e =>
        ({| input := input st;
            messages := messages st;
            turnId := turnId st;
            chatSessionId := chatSessionId st;
            loading := false |},
         started_log r ++ [ConsoleError (js "Failed to start session:") e], Ok tt)
    end.
Proof.
  unfold startSession_resume.
  destruct r as [|[s [data|]]]; unfold_prog; try reflexivity.
  destruct (get_prop data (js "chat_session_id")); reflexivity.
Qed.

Lemma startSession_split (env : Env) (r : fetch_result) (st : State) :
  startSession env r st = (startSession_call env ;; startSession_resume r) st.
Proof.
  unfold bind. unfold startSession_call at 1, fetch_call at 1, emit at 1.
  rewrite startSession_resume_spec. unfold startSession.
  destruct r as [|[s [data|]]]; unfold_prog; try reflexivity.
  destruct (get_prop data (js "chat_session_id")); reflexivity.
Qed.

Lemma startSession_spec (env : Env) (r : fetch_result) (st : State) :
  startSession env r st =
    match property_of (js "chat_session_id") r with
    | Ok id =>
        ({| input := input st;
            messages := messages st;
            turnId := turnId st;
            chatSessionId := id;
            loading := false |},
         session_start_request :: started_log r, Ok tt)
    | Throw e =>
        ({| input := input st;
            messages := messages st;
            turnId := turnId st;
            chatSessionId := chatSessionId st;
            loading := false |},
         session_start_request ::
           started_log r ++ [ConsoleError (js "Failed to start session:") e],
         Ok tt)
    end.
Proof.
  rewrite startSession_split. unfold bind.
  unfold startSession_call at 1, fetch_call at 1, emit at 1.
  rewrite startSession_resume_spec.
  destruct (property_of (js "chat_session_id") r); reflexivity.
Qed.

(** ** Sequencing *)

Lemma state_after_bind {A B} (m : prog A) (k : A -> prog B) (st st1 : State)
    (e1 : list effect) (a : A) :
  m st = (st1, e1, Ok a) ->
  state_after (bind m k) st = state_after (k a) st1 /\
  effects_of (bind m k) st = e1 ++ effects_of (k a) st1.
Proof.
  intros H. unfold state_after, effects_of, exec, bind. rewrite H.
  destruct (k a st1) as [[st2 e2] res]. split; reflexivity.
Qed.

Lemma step_returns (env : Env) (a : action) (st : State) :
  exists st1 e1, step env a st = (st1, e1, Ok tt).
Proof.
  destruct a; simpl.
  - eexists _, _. reflexivity.
  - rewrite startSession_resume_spec.
    destruct (property_of _ r); eexists _, _; reflexivity.
  - eexists _, _. reflexivity.
  - unfold bind. rewrite changeEvent_call_spec.
    destruct (JsString.eqb _ _); eexists _, _; reflexivity.
  - rewrite changeEvent_resume_spec.
    destruct (property_of _ r); eexists _, _; reflexivity.
  - eexists _, _. reflexivity.
Qed.

Lemma run_cons (env : Env) (a : action) (rest : list action) (st : State) :
  state_after (run env (a :: rest)) st =
    state_after (run env rest) (state_after (step env a) st) /\
  effects_of (run env (a :: rest)) st =
    effects_of (step env a) st ++ effects_of (run env rest) (state_after (step env a) st).
Proof.
  destruct (step_returns env a st) as (st1 & e1 & H).
  simpl run. destruct (state_after_bind _ (fun _ => run env rest) _ _ _ _ H) as [-> ->].
  unfold state_after, effects_of, exec. rewrite H. split; reflexivity.
Qed.

Lemma changeEvent_returns (env : Env) (r : fetch_result) (st : State) :
  exists st1 e1, changeEvent env r st = (st1, e1, Ok tt).
Proof.
  destruct (list_eq_dec N.eq_dec (trim (input st)) []) as [E|E].
  - rewrite (changeEvent_blank env r st E). eauto.
  - destruct (property_of (js "response") r) eqn:Hr.
    + rewrite (changeEvent_ok env r st a E Hr). eauto.
    + rewrite (changeEvent_throw env r st e E Hr). eauto.
Qed.

(** ** Invariants of single actions *)

Lemma step_turnId (env : Env) (a : action) (st : State) :
  turnId st <= turnId (state_after (step env a) st).
Proof.
  unfold state_after, exec. destruct a; simpl.
  - lia.
  - rewrite startSession_resume_spec. destruct (property_of _ r); simpl; lia.
  - lia.
  - unfold bind. rewrite changeEvent_call_spec.
    destruct (JsString.eqb _ _); simpl; lia.
  - rewrite changeEvent_resume_spec. destruct (property_of _ r); simpl; lia.
  - lia.
Qed.

Lemma step_messages (env : Env) (a : action) (st : State) :
  exists suffix, messages (state_after (step env a) st) = messages st ++ suffix.
Proof.
  unfold state_after, exec. destruct a; simpl.
  - exists []. now rewrite app_nil_r.
  - rewrite startSession_resume_spec.
    destruct (property_of _ r); simpl; exists []; now rewrite app_nil_r.
  - exists []. now rewrite app_nil_r.
  - unfold bind. rewrite changeEvent_call_spec.
    destruct (JsString.eqb _ _); simpl; eauto. exists []. now rewrite app_nil_r.
  - rewrite changeEvent_resume_spec. destruct (property_of _ r); simpl; eauto.
  - exists []. now rewrite app_nil_r.
Qed.

Lemma run_turnId (env : Env) (actions : list action) (st : State) :
  turnId st <= turnId (state_after (run env actions) st).
Proof.
  revert st. induction actions as [|a rest IH]; intros st.
  - unfold state_after, exec. simpl. lia.
  - destruct (run_cons env a rest st) as [-> _].
    etransitivity; [apply (step_turnId env a)|apply IH].
Qed.

Lemma run_messages (env : Env) (actions : list action) (st : State) :
  exists suffix, messages (state_after (run env actions) st) = messages st ++ suffix.
Proof.
  revert st. induction actions as [|a rest IH]; intros st.
  - exists []. unfold state_after, exec. simpl. now rewrite app_nil_r.
  - destruct (run_cons env a rest st) as [-> _].
    destruct (step_messages env a st) as [s1 H1].
    destruct (IH (state_after (step env a) st)) as [s2 H2].
    exists (s1 ++ s2). rewrite H2, H1. now rewrite app_assoc.
Qed.

(** ** Exchanges run to completion *)

Lemma exchange_unfold (env : Env) (v : jsstring) (r : fetch_result) (st : State) :
  exchange env v r st =
    changeEvent env r {| input := v;
                         messages := messages st;
                         turnId := turnId st;
                         chatSessionId := chatSessionId st;
                         loading := loading st |}.
Proof.
  unfold exchange, bind, onChange. unfold setInput at 1.
  destruct (changeEvent env r _) as [[st2 e2] res]. reflexivity.
Qed.

Section Exchanges.

Variable env : Env.

Lemma exchange_ok (v : jsstring) (r : fetch_result) (st : State) (reply : value) :
  trim v <> [] ->
  property_of (js "response") r = Ok reply ->
  exchange env v r st =
    ({| input := js "";
        messages := messages st ++ [userMessage v; botMessage reply];
        turnId := turnId st + 1;
        chatSessionId := chatSessionId st;
        loading := loading st |},
     [chat_request v (turnId st)],
     Ok tt).
Proof.
  intros Hv Hr. unfold exchange, bind, onChange. unfold setInput at 1.
  rewrite (changeEvent_ok env r _ reply); [reflexivity|exact Hv|exact Hr].
Qed.

Lemma exchange_blank (v : jsstring) (r : fetch_result) (st : State) :
  whitespace_only v = true ->
  exchange env v r st =
    ({| input := v;
        messages := messages st;
        turnId := turnId st;
        chatSessionId := chatSessionId st;
        loading := loading st |}, [], Ok tt).
Proof.
  intros Hv. unfold exchange, bind, onChange. unfold setInput at 1.
  rewrite changeEvent_blank; [reflexivity|]. now apply trim_nil.
Qed.

Lemma exchanges_ok (l : list (jsstring * fetch_result)) :
  Forall (fun p => trim (fst p) <> [] /\ throws (snd p) = false) l ->
  forall st,
    turnId (state_after (exchanges env l) st) = turnId st + Z.of_nat (length l) /\
    messages (state_after (exchanges env l) st) =
      messages st ++
      flat_map (fun p => [userMessage (fst p); botMessage (reply_text (snd p))]) l.
Proof.
  induction 1 as [|[v r] l [Hv Hr] _ IH]; intros st.
  - unfold state_after, exec. simpl. rewrite app_nil_r. split; [lia|reflexivity].
  - simpl in Hv, Hr. apply (returns_iff_value (js "response")) in Hr as [reply Hr].
    simpl exchanges.
    destruct (state_after_bind _ (fun _ => exchanges env l) _ _ _ _
                (exchange_ok v r st reply Hv Hr)) as [-> _].
    destruct (IH {| input := js "";
                    messages := messages st ++ [userMessage v; botMessage reply];
                    turnId := turnId st + 1;
                    chatSessionId := chatSessionId st;
                    loading := loading st |}) as [-> ->].
    simpl turnId. simpl messages. split.
    + simpl length. lia.
    + simpl flat_map. unfold reply_text at 2. simpl snd. rewrite Hr.
      rewrite <- app_assoc. reflexivity.
Qed.

Lemma exchanges_blank (l : list (jsstring * fetch_result)) :
  Forall (fun p => whitespace_only (fst p) = true) l ->
  forall st,
    messages (state_after (exchanges env l) st) = messages st /\
    turnId (state_after (exchanges env l) st) = turnId st /\
    chatSessionId (state_after (exchanges env l) st) = chatSessionId st /\
    loading (state_after (exchanges env l) st) = loading st /\
    effects_of (exchanges env l) st = [].
Proof.
  induction 1 as [|[v r] l Hv _ IH]; intros st.
  - unfold state_after, effects_of, exec. simpl. repeat split; reflexivity.
  - simpl in Hv. simpl exchanges.
    destruct (state_after_bind _ (fun _ => exchanges env l) _ _ _ _
                (exchange_blank v r st Hv)) as [-> ->].
    exact (IH {| input := v;
                 messages := messages st;
                 turnId := turnId st;
                 chatSessionId := chatSessionId st;
                 loading := loading st |}).
Qed.

Lemma clicks_blank (rs : list fetch_result) (st : State) :
  whitespace_only (input st) = true ->
  exec (clicks env rs) st = (st, []).
Proof.
  intros H. induction rs as [|r rs IH].
  - reflexivity.
  - apply trim_nil in H.
    unfold exec in *. simpl clicks. unfold bind.
    rewrite (changeEvent_blank env r st H).
    destruct (clicks env rs st) as [[st2 e2] res]. simpl in *. exact IH.
Qed.

End Exchanges.

Lemma senders_alternate (l : list (jsstring * fetch_result)) :
  map sender (flat_map (fun p => [userMessage (fst p); botMessage (reply_text (snd p))]) l) =
  concat (repeat [js "user"; js "bot"] (length l)).
Proof.
  induction l as [|p l IH]; simpl; [reflexivity|]. now rewrite IH.
Qed.

(** ** The scenarios of the specification *)

(** Scenario A: the session starts with ["abc123"], the user sends
    ["Hello"] and the backend answers ["Hi there!"]. *)
Example scenario_A :
  let started :=
    Resolved {| status := 200;
                body := Some (Obj [(js "chat_session_id", Str (js "abc123"))]) |} in
  let answered :=
    Resolved {| status := 200;
                body := Some (Obj [(js "response", Str (js "Hi there!"))]) |} in
  let st := state_after (startSession study_page started ;;
                         exchange study_page (js "Hello") answered) initial in
  messages st = [{| sender := js "user"; text := Str (js "Hello") |};
                 {| sender := js "bot"; text := Str (js "Hi there!") |}] /\
  turnId st = 2.
Proof. vm_compute. split; reflexivity. Qed.

(** Scenario C: the user sends ["Hello"] and the request fails on the
    network. *)
Example scenario_C :
  let st := state_after (exchange study_page (js "Hello") Rejected) initial in
  messages st = [{| sender := js "user"; text := Str (js "Hello") |};
                 {| sender := js "error"; text := Str (js "Error sending message.") |}] /\
  turnId st = 1.
Proof. vm_compute. split; reflexivity. Qed.

(** Scenario D: the user submits three spaces. *)
Example scenario_D :
  let st := state_after (exchange study_page (js "   ") Rejected) initial in
  messages st = [] /\ turnId st = 1.
Proof. vm_compute. split; reflexivity. Qed.

(** A disabled send button and the guard of [changeEvent] test the same
    condition: a press that the guard lets through is one the button
    allows. *)
Lemma disabled_button_guard (env : Env) (st : State) :
  button_disabled st = true -> changeEvent_call env st = (st, [], Ok false).
Proof.
  intros H. rewrite changeEvent_call_spec.
  unfold button_disabled in H. rewrite H. reflexivity.
Qed.

(** * The claims *)

(** The request that [changeEvent] issues, for every state with text to
    send: the envelope in the specification's layout, with the literal
    ["XYZ"] where the session identifier belongs. *)
Lemma changeEvent_request (env : Env) (r : fetch_result) (st : State) :
  trim (input st) <> [] ->
  filter is_fetch (effects_of (changeEvent env r) st) =
    [Fetch chat_url
       {| method := js "POST";
          headers := json_headers;
          body_json := envelope_of_spec (input st) (turnId st) (Str (js "XYZ")) |}].
Proof.
  intros H. unfold effects_of, exec.
  destruct (property_of (js "response") r) eqn:Hr.
  - rewrite (changeEvent_ok env r st a H Hr). reflexivity.
  - rewrite (changeEvent_throw env r st e H Hr). reflexivity.
Qed.

(** C1 (the code departs from the claim). The session is started and the
    backend returns the identifier ["abc123"], which [startSession] stores
    in [chatSessionId]. The user then sends ["Hello"]. The envelope of the
    request has the submitted text and the turn number ["1"] as claimed,
    but its [chat_session_id] is the literal ["XYZ"], not the stored
    identifier. *)
Theorem envelope_ignores_stored_session_id :
  let started :=
    Resolved {| status := 200;
                body := Some (Obj [(js "chat_session_id", Str (js "abc123"))]) |} in
  let answered :=
    Resolved {| status := 200;
                body := Some (Obj [(js "response", Str (js "Hi there!"))]) |} in
  let st := state_after (startSession study_page started) initial in
  chatSessionId st = Str (js "abc123") /\
  effects_of (exchange study_page (js "Hello") answered) st =
    [Fetch chat_url
       {| method := js "POST";
          headers := json_headers;
          body_json := envelope_of_spec (js "Hello") 1 (Str (js "XYZ")) |}] /\
  envelope_of_spec (js "Hello") 1 (Str (js "XYZ")) <>
    envelope_of_spec (js "Hello") 1 (chatSessionId st).
Proof.
  vm_compute. repeat split. intros H. discriminate H.
Qed.

(** C2, as stated, fails: session start fails with a network error, no
    identifier is stored, and yet the send button is enabled once the user
    has typed ["Hello"], and pressing it issues a chat request. *)
Lemma request_issued_after_failed_session_start :
  let answered :=
    Resolved {| status := 200;
                body := Some (Obj [(js "response", Str (js "Hi there!"))]) |} in
  let st := state_after (startSession study_page Rejected) initial in
  throws Rejected = true /\
  chatSessionId st = Null /\
  button_disabled (state_after (onChange (js "Hello")) st) = false /\
  effects_of (exchange study_page (js "Hello") answered) st =
    [chat_request (js "Hello") 1].
Proof.
  vm_compute. repeat split.
Qed.

(** C2, amended: in every execution in which session start fails, no
    session identifier is stored ([chatSessionId] keeps its value, [null]
    at start) and [loading] is cleared; sending is not gated on the
    session: afterwards the send button is disabled exactly when the text
    is blank, submitting text that is non-empty after trimming issues
    exactly one chat request, and submitting blank text issues none. *)
Theorem failed_session_start_does_not_gate_sending
    (env : Env) (r : fetch_result) (st : State) :
  throws r = true ->
  let st1 := state_after (startSession env r) st in
  chatSessionId st1 = chatSessionId st /\
  loading st1 = false /\
  forall (v : jsstring) (r' : fetch_result),
    button_disabled (state_after (onChange v) st1) = whitespace_only v /\
    (trim v <> [] ->
       filter is_fetch (effects_of (exchange env v r') st1) =
         [chat_request v (turnId st)]) /\
    (trim v = [] -> effects_of (exchange env v r') st1 = []).
Proof.
  intros Hr st1.
  apply (throws_iff_error (js "chat_session_id")) in Hr as [e He].
  assert (Hst1 : st1 = {| input := input st;
                          messages := messages st;
                          turnId := turnId st;
                          chatSessionId := chatSessionId st;
                          loading := false |}).
  { unfold st1, state_after, exec. rewrite startSession_spec, He. reflexivity. }
  rewrite Hst1. simpl. repeat split.
  - unfold button_disabled, state_after, exec. simpl.
    destruct (whitespace_only v) eqn:E.
    + now apply blank_test.
    + apply eqb_neq. intros H. apply trim_nil in H. congruence.
  - intros Hv. unfold effects_of at 1, exec. rewrite exchange_unfold.
    apply (changeEvent_request env r'). exact Hv.
  - intros Hv. unfold effects_of, exec. rewrite exchange_unfold.
    rewrite changeEvent_blank; [reflexivity|exact Hv].
Qed.

Lemma failed_session_start_does_not_gate_sending_witness :
  let st1 := state_after (startSession study_page Rejected) initial in
  chatSessionId st1 = chatSessionId initial /\
  loading st1 = false /\
  forall (v : jsstring) (r' : fetch_result),
    button_disabled (state_after (onChange v) st1) = whitespace_only v /\
    (trim v <> [] ->
       filter is_fetch (effects_of (exchange study_page v r') st1) =
         [chat_request v (turnId initial)]) /\
    (trim v = [] -> effects_of (exchange study_page v r') st1 = []).
Proof.
  apply (failed_session_start_does_not_gate_sending study_page Rejected initial).
  reflexivity.
Defined.

(** C3, as stated, fails: a reply with status 500 whose body has no
    [response] field, and a reply with status 200 and an empty object,
    are each turned into a bot Message whose text is [undefined]; no error
    Message is appended and the turn counter advances to 2. *)
Lemma error_reply_becomes_bot_message :
  let internal_error :=
    {| status := 500;
       body := Some (Obj [(js "detail", Str (js "Internal Server Error"))]) |} in
  let no_field := {| status := 200; body := Some (Obj []) |} in
  let st1 := state_after (exchange study_page (js "Hello") (Resolved internal_error)) initial in
  let st2 := state_after (exchange study_page (js "Hello") (Resolved no_field)) initial in
  ok internal_error = false /\
  has_property (js "response") (Resolved internal_error) = false /\
  messages st1 = [userMessage (js "Hello"); botMessage Undefined] /\
  turnId st1 = 2 /\
  has_property (js "response") (Resolved no_field) = false /\
  messages st2 = [userMessage (js "Hello"); botMessage Undefined] /\
  turnId st2 = 2.
Proof.
  vm_compute. repeat split.
Qed.

(** C3, amended: for every message exchange whose fetch rejects (network
    error) or whose reply body cannot be parsed as JSON (or parses to
    [null]), exactly one error Message with the fixed notice
    ["Error sending message."] is appended to the transcript, after the
    user Message, and the turn counter is not advanced. *)
Theorem thrown_exchange_appends_error_message
    (env : Env) (r : fetch_result) (st : State) :
  trim (input st) <> [] ->
  throws r = true ->
  messages (state_after (changeEvent env r) st) =
    messages st ++
    [userMessage (input st);
     {| sender := js "error"; text := Str (js "Error sending message.") |}] /\
  turnId (state_after (changeEvent env r) st) = turnId st.
Proof.
  intros H Hr.
  apply (throws_iff_error (js "response")) in Hr as [e He].
  unfold state_after, exec. rewrite (changeEvent_throw env r st e H He).
  split; reflexivity.
Qed.

Lemma thrown_exchange_appends_error_message_witness :
  let st := state_after (onChange (js "Hello")) initial in
  messages (state_after (changeEvent study_page Rejected) st) =
    messages st ++
    [userMessage (input st);
     {| sender := js "error"; text := Str (js "Error sending message.") |}] /\
  turnId (state_after (changeEvent study_page Rejected) st) = turnId st.
Proof.
  apply (thrown_exchange_appends_error_message study_page Rejected
           (state_after (onChange (js "Hello")) initial)).
  - vm_compute. discriminate.
  - reflexivity.
Defined.

(** C4: for every natural number N and every sequence of N successful
    exchanges, each with text that is non-empty after trimming, run from
    the initial state, the turn counter afterwards is 1 + N and the
    transcript holds exactly 2N Messages whose senders alternate user,
    bot, user, bot, ... *)
Theorem successful_exchanges_count
    (env : Env) (l : list (jsstring * fetch_result)) :
  Forall (fun p => trim (fst p) <> [] /\ throws (snd p) = false) l ->
  let st := state_after (exchanges env l) initial in
  turnId st = 1 + Z.of_nat (length l) /\
  length (messages st) = (2 * length l)%nat /\
  map sender (messages st) = concat (repeat [js "user"; js "bot"] (length l)).
Proof.
  intros H st.
  destruct (exchanges_ok env l H initial) as [Ht Hm].
  fold st in Ht, Hm. simpl in Ht, Hm.
  split; [exact Ht|].
  assert (Hs : map sender (messages st) =
               concat (repeat [js "user"; js "bot"] (length l))).
  { rewrite Hm. apply senders_alternate. }
  split; [|exact Hs].
  rewrite <- (length_map sender), Hs.
  clear. induction (length l) as [|n IH]; simpl; [reflexivity|].
  rewrite IH. lia.
Qed.

Lemma successful_exchanges_count_witness :
  let l := [(js "Hello",
             Resolved {| status := 200;
                         body := Some (Obj [(js "response", Str (js "Hi there!"))]) |});
            (js "How are you?",
             Resolved {| status := 200;
                         body := Some (Obj [(js "response", Str (js "Fine."))]) |})] in
  let st := state_after (exchanges study_page l) initial in
  turnId st = 1 + Z.of_nat (length l) /\
  length (messages st) = (2 * length l)%nat /\
  map sender (messages st) = concat (repeat [js "user"; js "bot"] (length l)).
Proof.
  intros l.
  apply (successful_exchanges_count study_page l).
  repeat constructor; vm_compute; discriminate.
Defined.

(** C5, as stated, fails: a reply with status 409 whose body carries a
    [chat_session_id] has that identifier stored, and a reply with status
    500 and an error body is logged as a started session, not as a
    failure. *)
Lemma non_success_session_reply_is_accepted :
  let conflict :=
    {| status := 409;
       body := Some (Obj [(js "chat_session_id", Str (js "abc123"))]) |} in
  let internal_error :=
    {| status := 500;
       body := Some (Obj [(js "detail", Str (js "Internal Server Error"))]) |} in
  ok conflict = false /\
  chatSessionId (state_after (startSession study_page (Resolved conflict)) initial) =
    Str (js "abc123") /\
  ok internal_error = false /\
  has_property (js "chat_session_id") (Resolved internal_error) = false /\
  effects_of (startSession study_page (Resolved internal_error)) initial =
    [session_start_request;
     ConsoleLog (js "Session started:")
       (Obj [(js "detail", Str (js "Internal Server Error"))])].
Proof.
  vm_compute. repeat split.
Qed.

(** C5, amended: the session-start operation does not examine the HTTP
    status. A rejected fetch, a body that is not JSON and a [null] body
    are treated as a failure: the failure is logged, [chatSessionId] keeps
    its value ([null] at start) and [loading] is cleared. A parsed body
    that is missing the [chat_session_id] field is not logged as a
    failure; [undefined] is stored, so no usable identifier is stored
    either, and [loading] is cleared. *)
Theorem session_start_without_identifier
    (env : Env) (r : fetch_result) (st : State) :
  let st1 := state_after (startSession env r) st in
  (forall (s s' : Z) (b : option value),
     startSession env (Resolved {| status := s'; body := b |}) st =
       startSession env (Resolved {| status := s; body := b |}) st) /\
  loading st1 = false /\
  (throws r = true ->
     chatSessionId st1 = chatSessionId st /\
     exists e, In (ConsoleError (js "Failed to start session:") e)
                  (effects_of (startSession env r) st)) /\
  (throws r = false ->
     has_property (js "chat_session_id") r = false ->
     chatSessionId st1 = Undefined /\
     forall e, ~ In (ConsoleError (js "Failed to start session:") e)
                    (effects_of (startSession env r) st)).
Proof.
  intros st1. unfold st1, state_after, effects_of, exec.
  split; [|split; [|split]].
  - intros s s' b. rewrite !startSession_spec. reflexivity.
  - rewrite startSession_spec. destruct (property_of _ r); reflexivity.
  - intros H. rewrite startSession_spec.
    apply (throws_iff_error (js "chat_session_id")) in H as [e He].
    rewrite He. split; [reflexivity|].
    exists e. simpl. right. apply in_or_app. right. now left.
  - intros H Hp. rewrite startSession_spec.
    destruct r as [|[s [data|]]]; try discriminate.
    destruct data; try discriminate;
      try (split; [reflexivity|]; intros e; simpl; intros [F|[F|[]]]; discriminate).
    simpl in Hp |- *. destruct (lookup _ props); [discriminate|].
    split; [reflexivity|]. intros e. simpl. intros [F|[F|[]]]; discriminate.
Qed.

Lemma session_start_without_identifier_witness :
  (let r := Resolved {| status := 200; body := None |} in
   chatSessionId (state_after (startSession study_page r) initial) =
     chatSessionId initial /\
   exists e, In (ConsoleError (js "Failed to start session:") e)
                (effects_of (startSession study_page r) initial)) /\
  (let r := Resolved {| status := 200; body := Some (Obj []) |} in
   chatSessionId (state_after (startSession study_page r) initial) = Undefined /\
   forall e, ~ In (ConsoleError (js "Failed to start session:") e)
                  (effects_of (startSession study_page r) initial)) /\
  (let b := Some (Obj [(js "chat_session_id", Str (js "abc123"))]) in
   startSession study_page (Resolved {| status := 409; body := b |}) initial =
     startSession study_page (Resolved {| status := 200; body := b |}) initial).
Proof.
  split; [|split].
  - apply (proj1 (proj2 (proj2 (session_start_without_identifier study_page
             (Resolved {| status := 200; body := None |}) initial)))).
    reflexivity.
  - apply (proj2 (proj2 (proj2 (session_start_without_identifier study_page
             (Resolved {| status := 200; body := Some (Obj []) |}) initial))));
      reflexivity.
  - apply (proj1 (session_start_without_identifier study_page Rejected initial)).
Defined.

(** C6, as stated, fails: the backend answers ["Hello"] with status 500
    and an error body; the turn counter advances from 1 to 2 all the same,
    and the next exchange sends ["2"] as its [client_turn_id]. *)
Lemma turn_advances_after_error_reply :
  let internal_error :=
    {| status := 500;
       body := Some (Obj [(js "detail", Str (js "Internal Server Error"))]) |} in
  let answered :=
    Resolved {| status := 200;
                body := Some (Obj [(js "response", Str (js "Hi there!"))]) |} in
  let st := state_after (exchange study_page (js "Hello") (Resolved internal_error)) initial in
  ok internal_error = false /\
  turnId initial = 1 /\
  turnId st = 2 /\
  effects_of (exchange study_page (js "Hello") answered) st =
    [Fetch chat_url
       {| method := js "POST";
          headers := json_headers;
          body_json :=
            Obj [(js "user_message", Str (js "Hello"));
                 (js "client_turn_id", Str (js "2"));
                 (js "chat_session_id", Str (js "XYZ"))] |}].
Proof.
  vm_compute. repeat split.
Qed.

(** C6, amended: after an exchange whose backend call throws (the fetch
    rejects, or the reply body cannot be parsed as JSON or is [null]) the
    turn counter is unchanged; the next successful exchange sends that
    same, unadvanced turn number as its [client_turn_id] and only then
    advances the counter by one; and no execution, whatever its actions
    and however its requests settle, ever decreases the counter. *)
Theorem failed_exchange_keeps_turn_number
    (env : Env) (st : State) (r1 r2 : fetch_result) (v : jsstring) :
  trim (input st) <> [] ->
  throws r1 = true ->
  trim v <> [] ->
  throws r2 = false ->
  let st1 := state_after (changeEvent env r1) st in
  let st2 := state_after (exchange env v r2) st1 in
  turnId st1 = turnId st /\
  effects_of (exchange env v r2) st1 =
    [Fetch chat_url
       {| method := js "POST";
          headers := json_headers;
          body_json :=
            Obj [(js "user_message", Str v);
                 (js "client_turn_id", Str (toString (turnId st)));
                 (js "chat_session_id", Str (js "XYZ"))] |}] /\
  turnId st2 = turnId st + 1 /\
  (forall env' actions st',
     turnId st' <= turnId (state_after (run env' actions) st')).
Proof.
  intros H Hr1 Hv Hr2 st1 st2.
  apply (throws_iff_error (js "response")) in Hr1 as [e He].
  apply (returns_iff_value (js "response")) in Hr2 as [reply Hreply].
  assert (Hst1 : st1 = {| input := input st;
                          messages := messages st ++ [userMessage (input st); errorMessage];
                          turnId := turnId st;
                          chatSessionId := chatSessionId st;
                          loading := loading st |}).
  { unfold st1, state_after, exec. now rewrite (changeEvent_throw env r1 st e H He). }
  unfold st2, state_after, effects_of, exec.
  rewrite (exchange_ok env v r2 st1 reply Hv Hreply), Hst1. simpl.
  repeat split. intros env' actions st'. apply run_turnId.
Qed.

Lemma failed_exchange_keeps_turn_number_witness :
  let st := state_after (onChange (js "Hello")) initial in
  let r2 := Resolved {| status := 200;
                        body := Some (Obj [(js "response", Str (js "Hi there!"))]) |} in
  let st1 := state_after (changeEvent study_page Rejected) st in
  let st2 := state_after (exchange study_page (js "Hello") r2) st1 in
  turnId st1 = turnId st /\
  effects_of (exchange study_page (js "Hello") r2) st1 =
    [Fetch chat_url
       {| method := js "POST";
          headers := json_headers;
          body_json :=
            Obj [(js "user_message", Str (js "Hello"));
                 (js "client_turn_id", Str (toString (turnId st)));
                 (js "chat_session_id", Str (js "XYZ"))] |}] /\
  turnId st2 = turnId st + 1 /\
  (forall env' actions st',
     turnId st' <= turnId (state_after (run env' actions) st')).
Proof.
  intros st r2.
  apply (failed_exchange_keeps_turn_number study_page st Rejected r2 (js "Hello")).
  - vm_compute. discriminate.
  - reflexivity.
  - vm_compute. discriminate.
  - reflexivity.
Defined.

(** C7: submitting empty or whitespace-only text is a no-op, for any
    number of attempts: pressing send on a blank field any number of times
    leaves the whole state as it was and has no effect at all, and typing
    and submitting any sequence of blank texts appends no Message, sends
    no request and leaves the turn counter unchanged. *)
Theorem blank_submissions_are_noops (env : Env) :
  (forall (rs : list fetch_result) (st : State),
     whitespace_only (input st) = true ->
     exec (clicks env rs) st = (st, [])) /\
  (forall (l : list (jsstring * fetch_result)) (st : State),
     Forall (fun p => whitespace_only (fst p) = true) l ->
     messages (state_after (exchanges env l) st) = messages st /\
     turnId (state_after (exchanges env l) st) = turnId st /\
     effects_of (exchanges env l) st = []).
Proof.
  split.
  - intros rs st H. now apply clicks_blank.
  - intros l st H.
    destruct (exchanges_blank env l H st) as (Hm & Ht & _ & _ & He).
    auto.
Qed.

Lemma blank_submissions_are_noops_witness :
  exec (clicks study_page [Rejected; Rejected; Rejected])
       (state_after (onChange (js "   ")) initial) =
    (state_after (onChange (js "   ")) initial, []) /\
  (let l := [(js "   ", Rejected); (js "", Rejected)] in
   messages (state_after (exchanges study_page l) initial) = messages initial /\
   turnId (state_after (exchanges study_page l) initial) = turnId initial /\
   effects_of (exchanges study_page l) initial = []).
Proof.
  split.
  - apply (proj1 (blank_submissions_are_noops study_page)). reflexivity.
  - apply (proj2 (blank_submissions_are_noops study_page)).
    repeat constructor.
Defined.

(** C8: the transcript is append-only. Every action of an execution, and
    so every execution, leaves the Messages already in the transcript in
    place and at most appends at the end; session start appends nothing;
    and one exchange appends its user Message first and its bot or error
    Message after it, or nothing when the text is blank. *)
Theorem transcript_is_append_only :
  (forall env a st,
     exists suffix, messages (state_after (step env a) st) = messages st ++ suffix) /\
  (forall env actions st,
     exists suffix, messages (state_after (run env actions) st) = messages st ++ suffix) /\
  (forall env r st,
     messages (state_after (startSession env r) st) = messages st) /\
  (forall env r st,
     trim (input st) <> [] ->
     exists m,
       messages (state_after (changeEvent env r) st) =
         messages st ++ [userMessage (input st); m] /\
       (throws r = false /\ m = botMessage (reply_text r) \/
        throws r = true /\ m = errorMessage)) /\
  (forall env r st,
     trim (input st) = [] ->
     messages (state_after (changeEvent env r) st) = messages st).
Proof.
  split; [exact step_messages|].
  split; [exact run_messages|].
  split; [|split].
  - intros env r st. unfold state_after, exec. rewrite startSession_spec.
    destruct (property_of _ r); reflexivity.
  - intros env r st H. unfold state_after, exec, reply_text.
    destruct (property_of (js "response") r) eqn:Hr.
    + rewrite (changeEvent_ok env r st a H Hr). eexists. split; [reflexivity|].
      left. split; [|reflexivity].
      apply (returns_iff_value (js "response")). eauto.
    + rewrite (changeEvent_throw env r st e H Hr). eexists. split; [reflexivity|].
      right. split; [|reflexivity].
      apply (throws_iff_error (js "response")). eauto.
  - intros env r st H. unfold state_after, exec.
    now rewrite (changeEvent_blank env r st H).
Qed.

Lemma transcript_is_append_only_witness :
  let st := state_after (exchange study_page (js "Hello") Rejected) initial in
  exists m,
    messages (state_after (changeEvent study_page Rejected) st) =
      messages st ++ [userMessage (input st); m] /\
    (throws Rejected = false /\ m = botMessage (reply_text Rejected) \/
     throws Rejected = true /\ m = errorMessage).
Proof.
  intros st.
  apply (proj1 (proj2 (proj2 (proj2 transcript_is_append_only))) study_page Rejected st).
  vm_compute. discriminate.
Defined.

(** C9: the session-start request is a fixed constant. Whatever the query
    parameters of the page URL, the one request that [startSession] sends
    goes to the session-start endpoint with pid ["123456789"], study_id
    ["study_001"], prolific_session_id ["sessionId"], qr_pre ["qr_001"]
    and experiment_id ["exp_001"]; and the values read from the URL are
    used nowhere: two pages that differ only in their URL behave alike in
    every execution. *)
Theorem session_start_request_is_constant
    (env1 env2 : Env) (r : fetch_result) (st : State) :
  filter is_fetch (effects_of (startSession env1 r) st) =
    [Fetch (js "http://127.0.0.1:8000/session/start")
       {| method := js "POST";
          headers := [(js "Content-Type", js "application/json")];
          body_json :=
            Obj [(js "pid", Str (js "123456789"));
                 (js "study_id", Str (js "study_001"));
                 (js "prolific_session_id", Str (js "sessionId"));
                 (js "qr_pre", Str (js "qr_001"));
                 (js "experiment_id", Str (js "exp_001"))] |}] /\
  startSession env1 r st = startSession env2 r st /\
  (forall r', changeEvent env1 r' st = changeEvent env2 r' st) /\
  (forall actions, run env1 actions st = run env2 actions st).
Proof.
  split; [|split; [reflexivity|split; [reflexivity|]]].
  - unfold effects_of, exec. rewrite startSession_spec.
    destruct r as [|[s [data|]]]; try reflexivity.
    simpl. destruct (get_prop data _); reflexivity.
  - intros actions. revert st. induction actions as [|a rest IH]; intros st.
    + reflexivity.
    + simpl. unfold bind.
      replace (step env2 a st) with (step env1 a st) by (destruct a; reflexivity).
      destruct (step env1 a st) as [[st1 e1] [[]|e]]; [|reflexivity].
      rewrite IH. reflexivity.
Qed.

(** C10: the pending input text is cleared only by a successful exchange.
    A failed exchange, which appends the error Message, leaves in the
    field the text the user submitted; a blank submission leaves the field
    as it is; a successful exchange empties it; so whenever [changeEvent]
    changes the field, the exchange was a successful one. *)
Theorem input_cleared_only_on_success
    (env : Env) (r : fetch_result) (st : State) :
  let st1 := state_after (changeEvent env r) st in
  (trim (input st) <> [] -> throws r = true ->
     input st1 = input st /\
     messages st1 = messages st ++ [userMessage (input st); errorMessage]) /\
  (trim (input st) = [] -> input st1 = input st) /\
  (trim (input st) <> [] -> throws r = false -> input st1 = js "") /\
  (input st1 <> input st -> trim (input st) <> [] /\ throws r = false).
Proof.
  intros st1. unfold st1, state_after, exec.
  destruct (list_eq_dec N.eq_dec (trim (input st)) []) as [E|E].
  - rewrite (changeEvent_blank env r st E). simpl.
    split; [|split; [|split]]; intros; try reflexivity; contradiction.
  - destruct (property_of (js "response") r) eqn:Hr.
    + assert (Hok : throws r = false)
        by (apply (returns_iff_value (js "response")); eauto).
      rewrite (changeEvent_ok env r st a E Hr). simpl. rewrite Hok.
      split; [|split; [|split]]; intros; try discriminate; try contradiction; auto.
    + assert (Hko : throws r = true)
        by (apply (throws_iff_error (js "response")); eauto).
      rewrite (changeEvent_throw env r st e E Hr). simpl. rewrite Hko.
      split; [|split; [|split]]; intros; try discriminate; try contradiction; auto.
Qed.

Lemma input_cleared_only_on_success_witness :
  let st := state_after (onChange (js "Hello")) initial in
  input (state_after (changeEvent study_page Rejected) st) = js "Hello" /\
  messages (state_after (changeEvent study_page Rejected) st) =
    [userMessage (js "Hello"); errorMessage].
Proof.
  intros st.
  apply (proj1 (input_cleared_only_on_success study_page Rejected st)).
  - vm_compute. discriminate.
  - reflexivity.
Defined.

(** * Further properties of the component *)

(** ** Single actions, in closed form *)

Lemma step_click_nonblank (env : Env) (st : State) :
  trim (input st) <> [] ->
  step env Click st =
    ({| input := input st;
        messages := messages st ++ [userMessage (input st)];
        turnId := turnId st;
        chatSessionId := chatSessionId st;
        loading := loading st |},
     [chat_request (input st) (turnId st)], Ok tt).
Proof.
  intros H. simpl. unfold bind. rewrite changeEvent_call_spec.
  rewrite (nonblank_test _ H). reflexivity.
Qed.

Lemma step_click_blank (env : Env) (st : State) :
  trim (input st) = [] -> step env Click st = (st, [], Ok tt).
Proof.
  intros H. simpl. unfold bind. rewrite changeEvent_call_spec.
  replace (JsString.eqb (trim (input st)) (js "")) with true; [reflexivity|].
  symmetry. now apply eqb_eq.
Qed.

Lemma step_settled_ok (env : Env) (r : fetch_result) (st : State) (reply : value) :
  property_of (js "response") r = Ok reply ->
  step env (ChatSettled r) st =
    ({| input := js "";
        messages := messages st ++ [botMessage reply];
        turnId := turnId st + 1;
        chatSessionId := chatSessionId st;
        loading := loading st |}, [], Ok tt).
Proof. intros H. simpl. rewrite changeEvent_resume_spec, H. reflexivity. Qed.

Lemma step_settled_throw (env : Env) (r : fetch_result) (st : State) (e : error) :
  property_of (js "response") r = Throw e ->
  step env (ChatSettled r) st =
    ({| input := input st;
        messages := messages st ++ [errorMessage];
        turnId := turnId st;
        chatSessionId := chatSessionId st;
        loading := loading st |},
     [ConsoleError (js "Error sending message:") e], Ok tt).
Proof. intros H. simpl. rewrite changeEvent_resume_spec, H. reflexivity. Qed.

Lemma run_returns (env : Env) (actions : list action) (st : State) :
  exists st1 e1, run env actions st = (st1, e1, Ok tt).
Proof.
  revert st. induction actions as [|a rest IH]; intros st.
  - eexists _, _. reflexivity.
  - destruct (step_returns env a st) as (st1 & e1 & H1).
    destruct (IH st1) as (st2 & e2 & H2).
    exists st2, (e1 ++ e2). simpl. unfold bind. rewrite H1, H2. reflexivity.
Qed.

Lemma blank_or_not (s : jsstring) : {trim s = []} + {trim s <> []}.
Proof. apply (list_eq_dec N.eq_dec). Qed.

(** ** Failures stay inside the handlers *)

(** X1: no handler lets an exception escape. However its request
    settles, [changeEvent] returns normally, and so do [startSession] and
    every execution of the component. *)
Theorem handlers_never_throw
    (env : Env) (r : fetch_result) (actions : list action) (st : State) :
  snd (changeEvent env r st) = Ok tt /\
  snd (startSession env r st) = Ok tt /\
  snd (run env actions st) = Ok tt.
Proof.
  split; [|split].
  - destruct (changeEvent_returns env r st) as (st1 & e1 & ->). reflexivity.
  - rewrite startSession_spec. destruct (property_of _ r); reflexivity.
  - destruct (run_returns env actions st) as (st1 & e1 & ->). reflexivity.
Qed.

(** ** The session cells *)

Lemma step_loading (env : Env) (a : action) (st : State) :
  loading st = false -> loading (state_after (step env a) st) = false.
Proof.
  intros H. unfold state_after, exec. destruct a; simpl; try exact H.
  - rewrite startSession_resume_spec. destruct (property_of _ r); reflexivity.
  - unfold bind. rewrite changeEvent_call_spec.
    destruct (JsString.eqb _ _); simpl; exact H.
  - rewrite changeEvent_resume_spec. destruct (property_of _ r); simpl; exact H.
Qed.

(** X2: [loading] is cleared for good. Whatever the session-start
    request settles with, [startSession] ends with [loading] false, and
    once it is false no execution ever sets it again. *)
Theorem loading_cleared_for_good (env : Env) :
  (forall r st, loading (state_after (startSession env r) st) = false) /\
  (forall r st, loading (state_after (step env (SessionSettled r)) st) = false) /\
  (forall actions st,
     loading st = false ->
     loading (state_after (run env actions) st) = false).
Proof.
  split; [|split].
  - intros r st. unfold state_after, exec. rewrite startSession_spec.
    destruct (property_of _ r); reflexivity.
  - intros r st. unfold state_after, exec. simpl. rewrite startSession_resume_spec.
    destruct (property_of _ r); reflexivity.
  - intros actions. induction actions as [|a rest IH]; intros st H.
    + exact H.
    + destruct (run_cons env a rest st) as [-> _].
      apply IH. now apply step_loading.
Qed.

Lemma loading_cleared_for_good_witness :
  loading (state_after (run study_page [Change (js "Hi"); Click; ChatSettled Rejected])
             (state_after (startSession study_page Rejected) initial)) = false.
Proof.
  apply (proj2 (proj2 (loading_cleared_for_good study_page))).
  reflexivity.
Defined.

(** X3: an exchange neither reads nor writes the session cells. Two
    states that differ only in [chatSessionId] and [loading] issue the
    same request, log the same, and end with the same text field,
    transcript and turn counter; and the exchange hands both cells back
    untouched. *)
Theorem exchange_ignores_session
    (env : Env) (r : fetch_result) (st : State) (id : value) (flag : bool) :
  let st' := {| input := input st;
                messages := messages st;
                turnId := turnId st;
                chatSessionId := id;
                loading := flag |} in
  effects_of (changeEvent env r) st' = effects_of (changeEvent env r) st /\
  input (state_after (changeEvent env r) st') = input (state_after (changeEvent env r) st) /\
  messages (state_after (changeEvent env r) st') = messages (state_after (changeEvent env r) st) /\
  turnId (state_after (changeEvent env r) st') = turnId (state_after (changeEvent env r) st) /\
  chatSessionId (state_after (changeEvent env r) st') = id /\
  loading (state_after (changeEvent env r) st') = flag.
Proof.
  intros st'. unfold state_after, effects_of, exec.
  destruct (blank_or_not (input st)) as [E|E].
  - rewrite (changeEvent_blank env r st E), (changeEvent_blank env r st' E).
    repeat split.
  - destruct (property_of (js "response") r) eqn:Hr.
    + rewrite (changeEvent_ok env r st a E Hr), (changeEvent_ok env r st' a E Hr).
      repeat split.
    + rewrite (changeEvent_throw env r st e E Hr), (changeEvent_throw env r st' e E Hr).
      repeat split.
Qed.

Lemma step_chatSessionId (env : Env) (a : action) (st : State) :
  is_session_settled a = false ->
  chatSessionId (state_after (step env a) st) = chatSessionId st.
Proof.
  intros H. unfold state_after, exec. destruct a; simpl; try reflexivity.
  - discriminate.
  - unfold bind. rewrite changeEvent_call_spec.
    destruct (JsString.eqb _ _); reflexivity.
  - rewrite changeEvent_resume_spec. destruct (property_of _ r); reflexivity.
Qed.

(** X4: the stored session identifier changes only when the
    session-start request settles. An execution without that action,
    however many messages it exchanges, leaves [chatSessionId] as it
    was; and [startSession] for its part leaves the text field, the
    transcript and the turn counter alone. *)
Theorem session_id_changes_only_on_settle (env : Env) :
  (forall actions st,
     forallb (fun a => negb (is_session_settled a)) actions = true ->
     chatSessionId (state_after (run env actions) st) = chatSessionId st) /\
  (forall r st,
     input (state_after (startSession env r) st) = input st /\
     messages (state_after (startSession env r) st) = messages st /\
     turnId (state_after (startSession env r) st) = turnId st).
Proof.
  split.
  - intros actions. induction actions as [|a rest IH]; intros st H.
    + reflexivity.
    + simpl in H. apply andb_prop in H as [Ha Hrest].
      destruct (run_cons env a rest st) as [-> _].
      rewrite (IH _ Hrest). apply step_chatSessionId.
      now apply negb_true_iff.
  - intros r st. unfold state_after, exec. rewrite startSession_spec.
    destruct (property_of _ r); repeat split.
Qed.

Lemma session_id_changes_only_on_settle_witness :
  chatSessionId
    (state_after (run study_page [Mount; Change (js "Hi"); Click; ChatSettled Rejected; EndChat])
       initial) = chatSessionId initial.
Proof.
  apply (proj1 (session_id_changes_only_on_settle study_page)).
  reflexivity.
Defined.

(** ** Requests in flight *)

Lemma run_after (env : Env) (a : action) (rest : list action)
    (st st1 : State) (e1 : list effect) :
  step env a st = (st1, e1, Ok tt) ->
  state_after (run env (a :: rest)) st = state_after (run env rest) st1 /\
  effects_of (run env (a :: rest)) st = e1 ++ effects_of (run env rest) st1.
Proof.
  intros H. destruct (run_cons env a rest st) as [-> ->].
  assert (Hs : state_after (step env a) st = st1)
    by (unfold state_after, exec; now rewrite H).
  assert (He : effects_of (step env a) st = e1)
    by (unfold effects_of, exec; now rewrite H).
  rewrite Hs, He. split; reflexivity.
Qed.

Lemma run_nil (env : Env) (st : State) :
  state_after (run env []) st = st /\ effects_of (run env []) st = [].
Proof. split; reflexivity. Qed.

Lemma run_change (env : Env) (v : jsstring) (rest : list action) (st : State) :
  state_after (run env (Change v :: rest)) st =
    state_after (run env rest)
      {| input := v;
         messages := messages st;
         turnId := turnId st;
         chatSessionId := chatSessionId st;
         loading := loading st |} /\
  effects_of (run env (Change v :: rest)) st =
    effects_of (run env rest)
      {| input := v;
         messages := messages st;
         turnId := turnId st;
         chatSessionId := chatSessionId st;
         loading := loading st |}.
Proof. apply (run_after env (Change v) rest st _ []). reflexivity. Qed.

Ltac run_typed :=
  rewrite ?(fun env v rest st => proj1 (run_change env v rest st)),
          ?(fun env v rest st => proj2 (run_change env v rest st));
  cbn [input messages turnId chatSessionId loading].

Ltac run_step H :=
  rewrite ?(fun rest => proj1 (run_after _ _ rest _ _ _ H)),
          ?(fun rest => proj2 (run_after _ _ rest _ _ _ H));
  cbn [input messages turnId chatSessionId loading].

Ltac run_done :=
  rewrite ?(fun env st => proj1 (run_nil env st)),
          ?(fun env st => proj2 (run_nil env st)).

(** X5: two sends that overlap share their turn number. If the user
    sends a second message before the first request has settled, both
    requests carry the same [client_turn_id]; when both succeed the
    transcript holds the two user Messages first and the two replies
    after them, and the counter has advanced by two. *)
Theorem overlapping_sends_share_turn_number
    (env : Env) (st : State) (v2 : jsstring) (r1 r2 : fetch_result) :
  trim (input st) <> [] ->
  trim v2 <> [] ->
  throws r1 = false ->
  throws r2 = false ->
  let actions := [Click; Change v2; Click; ChatSettled r1; ChatSettled r2] in
  sent_turns (effects_of (run env actions) st) =
    [Str (toString (turnId st)); Str (toString (turnId st))] /\
  messages (state_after (run env actions) st) =
    messages st ++ [userMessage (input st); userMessage v2;
                    botMessage (reply_text r1); botMessage (reply_text r2)] /\
  turnId (state_after (run env actions) st) = turnId st + 2.
Proof.
  intros H1 H2 Hr1 Hr2 actions. unfold actions, reply_text.
  apply (returns_iff_value (js "response")) in Hr1 as [reply1 Hr1].
  apply (returns_iff_value (js "response")) in Hr2 as [reply2 Hr2].
  rewrite Hr1, Hr2.
  run_step (step_click_nonblank env st H1).
  run_typed.
  run_step (step_click_nonblank env
              {| input := v2;
                 messages := messages st ++ [userMessage (input st)];
                 turnId := turnId st;
                 chatSessionId := chatSessionId st;
                 loading := loading st |} H2).
  run_step (step_settled_ok env r1
              {| input := v2;
                 messages := (messages st ++ [userMessage (input st)]) ++ [userMessage v2];
                 turnId := turnId st;
                 chatSessionId := chatSessionId st;
                 loading := loading st |} reply1 Hr1).
  run_step (step_settled_ok env r2
              {| input := js "";
                 messages := ((messages st ++ [userMessage (input st)]) ++ [userMessage v2])
                               ++ [botMessage reply1];
                 turnId := turnId st + 1;
                 chatSessionId := chatSessionId st;
                 loading := loading st |} reply2 Hr2).
  run_done. simpl. split; [reflexivity|]. split; [|lia].
  rewrite <- !app_assoc. reflexivity.
Qed.

Lemma overlapping_sends_share_turn_number_witness :
  let st := state_after (onChange (js "Hello")) initial in
  let r := Resolved {| status := 200;
                       body := Some (Obj [(js "response", Str (js "Hi there!"))]) |} in
  let actions := [Click; Change (js "Anyone?"); Click; ChatSettled r; ChatSettled r] in
  sent_turns (effects_of (run study_page actions) st) =
    [Str (toString (turnId st)); Str (toString (turnId st))] /\
  messages (state_after (run study_page actions) st) =
    messages st ++ [userMessage (input st); userMessage (js "Anyone?");
                    botMessage (reply_text r); botMessage (reply_text r)] /\
  turnId (state_after (run study_page actions) st) = turnId st + 2.
Proof.
  intros st r.
  apply (overlapping_sends_share_turn_number study_page st (js "Anyone?") r r).
  - vm_compute. discriminate.
  - vm_compute. discriminate.
  - reflexivity.
  - reflexivity.
Defined.

(** X6: a reply that arrives while the user is typing. Text typed
    after a message was sent and before its request settles is wiped
    when the request succeeds, and is kept when the request fails. *)
Theorem reply_clears_text_typed_meanwhile
    (env : Env) (st : State) (v : jsstring) (r : fetch_result) :
  trim (input st) <> [] ->
  let st' := state_after (run env [Click; Change v; ChatSettled r]) st in
  (throws r = false -> input st' = js "") /\
  (throws r = true -> input st' = v).
Proof.
  intros H st'. unfold st'.
  run_step (step_click_nonblank env st H).
  run_typed.
  split; intros Hr.
  - apply (returns_iff_value (js "response")) in Hr as [reply Hr].
    run_step (step_settled_ok env r
                {| input := v;
                   messages := messages st ++ [userMessage (input st)];
                   turnId := turnId st;
                   chatSessionId := chatSessionId st;
                   loading := loading st |} reply Hr).
    run_done. reflexivity.
  - apply (throws_iff_error (js "response")) in Hr as [e Hr].
    run_step (step_settled_throw env r
                {| input := v;
                   messages := messages st ++ [userMessage (input st)];
                   turnId := turnId st;
                   chatSessionId := chatSessionId st;
                   loading := loading st |} e Hr).
    run_done. reflexivity.
Qed.

Lemma reply_clears_text_typed_meanwhile_witness :
  let st := state_after (onChange (js "Hello")) initial in
  let r := Resolved {| status := 200;
                       body := Some (Obj [(js "response", Str (js "Hi there!"))]) |} in
  let st' := state_after (run study_page [Click; Change (js "One more thing"); ChatSettled r]) st in
  (throws r = false -> input st' = js "") /\
  (throws r = true -> input st' = js "One more thing").
Proof.
  intros st r.
  apply (reply_clears_text_typed_meanwhile study_page st (js "One more thing") r).
  vm_compute. discriminate.
Defined.

(** ** What every action does to the transcript and the counter *)

Lemma sent_texts_app (e1 e2 : list effect) :
  sent_texts (e1 ++ e2) = sent_texts e1 ++ sent_texts e2.
Proof.
  induction e1 as [|e e1 IH]; [reflexivity|].
  destruct e; simpl; try exact IH.
  destruct (JsString.eqb url chat_url); [|exact IH].
  destruct (get_prop _ _); simpl; now rewrite IH.
Qed.

Lemma sent_turns_app (e1 e2 : list effect) :
  sent_turns (e1 ++ e2) = sent_turns e1 ++ sent_turns e2.
Proof.
  induction e1 as [|e e1 IH]; [reflexivity|].
  destruct e; simpl; try exact IH.
  destruct (JsString.eqb url chat_url); [|exact IH].
  destruct (get_prop _ _); simpl; now rewrite IH.
Qed.

Lemma sent_texts_request (v : jsstring) (t : Z) :
  sent_texts [chat_request v t] = [Str v].
Proof. reflexivity. Qed.

Lemma sent_turns_request (v : jsstring) (t : Z) :
  sent_turns [chat_request v t] = [Str (toString t)].
Proof. reflexivity. Qed.

(** The four things an action can do: nothing to the transcript; echo
    the user's text and send it; append a reply and advance the counter;
    append the error notice. *)
Lemma step_cases (env : Env) (a : action) (st : State) :
  let st1 := state_after (step env a) st in
  let es := effects_of (step env a) st in
  (messages st1 = messages st /\ turnId st1 = turnId st /\
   sent_texts es = [] /\ sent_turns es = []) \/
  (trim (input st) <> [] /\
   messages st1 = messages st ++ [userMessage (input st)] /\
   turnId st1 = turnId st /\
   es = [chat_request (input st) (turnId st)]) \/
  (exists reply,
     messages st1 = messages st ++ [botMessage reply] /\
     turnId st1 = turnId st + 1 /\ es = []) \/
  (exists e,
     messages st1 = messages st ++ [errorMessage] /\
     turnId st1 = turnId st /\
     es = [ConsoleError (js "Error sending message:") e]).
Proof.
  unfold state_after, effects_of, exec. destruct a.
  - left. simpl. repeat split.
  - left. simpl. rewrite startSession_resume_spec.
    destruct r as [|[s [data|]]]; simpl; try (repeat split; fail).
    destruct (get_prop data _); simpl; repeat split.
  - left. simpl. repeat split.
  - destruct (blank_or_not (input st)) as [E|E].
    + left. rewrite (step_click_blank env st E). repeat split.
    + right. left. rewrite (step_click_nonblank env st E). repeat split. exact E.
  - destruct (property_of (js "response") r) eqn:Hr.
    + right. right. left. exists a. rewrite (step_settled_ok env r st a Hr). repeat split.
    + right. right. right. exists e. rewrite (step_settled_throw env r st e Hr). repeat split.
  - left. simpl. repeat split.
Qed.

Lemma count_from_app (who : jsstring) (ms : list Message) (m : Message) :
  length (filter (from who) (ms ++ [m])) =
    (length (filter (from who) ms) + if from who m then 1 else 0)%nat.
Proof.
  rewrite filter_app, length_app. simpl. destruct (from who m); reflexivity.
Qed.

(** X7: the turn counter counts the replies. In every execution, from
    every state, the counter moves exactly as much as the number of bot
    Messages in the transcript; starting from the initial state it is
    always one more than the number of bot Messages shown. *)
Theorem turn_counter_counts_replies (env : Env) (actions : list action) :
  (forall st,
     turnId (state_after (run env actions) st)
       - Z.of_nat (length (filter (from (js "bot")) (messages (state_after (run env actions) st))))
     = turnId st - Z.of_nat (length (filter (from (js "bot")) (messages st)))) /\
  turnId (state_after (run env actions) initial) =
    1 + Z.of_nat (length (filter (from (js "bot"))
                            (messages (state_after (run env actions) initial)))).
Proof.
  assert (H : forall st,
     turnId (state_after (run env actions) st)
       - Z.of_nat (length (filter (from (js "bot")) (messages (state_after (run env actions) st))))
     = turnId st - Z.of_nat (length (filter (from (js "bot")) (messages st)))).
  { induction actions as [|a rest IH]; intros st.
    - reflexivity.
    - destruct (run_cons env a rest st) as [-> _]. rewrite IH.
      destruct (step_cases env a st)
        as [(Hm & Ht & _) | [(_ & Hm & Ht & _) | [(reply & Hm & Ht & _) | (e & Hm & Ht & _)]]];
        rewrite Hm, Ht; try rewrite count_from_app; try reflexivity.
      + change (from (js "bot") (userMessage (input st))) with false. cbv iota. lia.
      + change (from (js "bot") (botMessage reply)) with true. cbv iota. lia.
      + change (from (js "bot") errorMessage) with false. cbv iota. lia. }
  split; [exact H|].
  specialize (H initial). simpl in H. lia.
Qed.

Lemma user_texts_app (ms : list Message) (m : Message) :
  user_texts (ms ++ [m]) =
    user_texts ms ++ if from (js "user") m then [text m] else [].
Proof.
  unfold user_texts. rewrite filter_app, map_app. simpl.
  destruct (from (js "user") m); reflexivity.
Qed.

(** X8: the user Messages of the transcript are exactly what was sent.
    In every execution the texts of the user Messages appended to the
    transcript are, in order, the [user_message] fields of the chat
    requests issued: nothing is echoed without being sent, and nothing is
    sent without being echoed. *)
Theorem user_messages_are_what_was_sent
    (env : Env) (actions : list action) (st : State) :
  user_texts (messages (state_after (run env actions) st)) =
    user_texts (messages st) ++ sent_texts (effects_of (run env actions) st).
Proof.
  revert st. induction actions as [|a rest IH]; intros st.
  - simpl. now rewrite app_nil_r.
  - destruct (run_cons env a rest st) as [-> ->].
    rewrite IH, sent_texts_app, app_assoc. f_equal.
    destruct (step_cases env a st)
      as [(Hm & _ & He & _) | [(_ & Hm & _ & He) | [(reply & Hm & _ & He) | (e & Hm & _ & He)]]];
      rewrite Hm, He; try rewrite user_texts_app.
    + now rewrite app_nil_r.
    + reflexivity.
    + change (from (js "user") (botMessage reply)) with false. reflexivity.
    + change (from (js "user") errorMessage) with false. reflexivity.
Qed.

Lemma well_formed_user (v : jsstring) :
  trim v <> [] -> well_formed (userMessage v) = true.
Proof.
  intros H. unfold well_formed.
  change (JsString.eqb (sender (userMessage v)) (js "user")) with true.
  simpl. now rewrite (nonblank_test v H).
Qed.

(** X9: the transcript stays well formed. If every Message of the
    transcript is a user Message with a text that is not blank, a bot
    Message, or the fixed error notice, the same holds after every
    execution; so no blank user Message and no sender other than the
    three is ever shown. *)
Theorem transcript_stays_well_formed
    (env : Env) (actions : list action) (st : State) :
  forallb well_formed (messages st) = true ->
  forallb well_formed (messages (state_after (run env actions) st)) = true.
Proof.
  revert st. induction actions as [|a rest IH]; intros st H.
  - exact H.
  - destruct (run_cons env a rest st) as [-> _]. apply IH.
    destruct (step_cases env a st)
      as [(Hm & _) | [(E & Hm & _) | [(reply & Hm & _) | (e & Hm & _)]]];
      rewrite Hm; try exact H; rewrite forallb_app, H; simpl.
    + now rewrite (well_formed_user _ E).
    + reflexivity.
    + reflexivity.
Qed.

Lemma transcript_stays_well_formed_witness :
  forallb well_formed
    (messages (state_after
                 (run study_page
                    [Mount; Change (js "Hello"); Click; SessionSettled Rejected;
                     ChatSettled (Resolved {| status := 500; body := None |})])
                 initial)) = true.
Proof.
  apply (transcript_stays_well_formed study_page _ initial).
  reflexivity.
Defined.

(** ** Retries and turn numbers *)

(** X10: retrying after a failure sends the same envelope again.
    Pressing send again and again while every request fails keeps the
    text in the field and the counter where it was, appends one user
    Message and one error notice per attempt, and issues one request per
    attempt, all with the same text and the same [client_turn_id]. *)
Theorem failed_retries_resend_same_envelope
    (env : Env) (rs : list fetch_result) (st : State) :
  trim (input st) <> [] ->
  forallb throws rs = true ->
  let st' := state_after (clicks env rs) st in
  input st' = input st /\
  turnId st' = turnId st /\
  chatSessionId st' = chatSessionId st /\
  loading st' = loading st /\
  messages st' =
    messages st ++ concat (repeat [userMessage (input st); errorMessage] (length rs)) /\
  filter is_fetch (effects_of (clicks env rs) st) =
    repeat (chat_request (input st) (turnId st)) (length rs).
Proof.
  revert st. induction rs as [|r rs IH]; intros st H Hrs.
  - simpl. rewrite app_nil_r. repeat split.
  - simpl in Hrs. apply andb_prop in Hrs as [Hr Hrs].
    apply (throws_iff_error (js "response")) in Hr as [e He].
    pose proof (changeEvent_throw env r st e H He) as Hstep.
    simpl clicks.
    destruct (state_after_bind _ (fun _ => clicks env rs) _ _ _ _ Hstep) as [Hs Hes].
    cbv zeta. rewrite Hs, Hes.
    specialize (IH {| input := input st;
                      messages := messages st ++ [userMessage (input st); errorMessage];
                      turnId := turnId st;
                      chatSessionId := chatSessionId st;
                      loading := loading st |} H Hrs).
    cbv zeta in IH. simpl input in IH. simpl turnId in IH. simpl messages in IH.
    simpl chatSessionId in IH. simpl loading in IH.
    destruct IH as (-> & -> & -> & -> & -> & Hf).
    repeat split.
    + simpl. rewrite <- app_assoc. reflexivity.
    + simpl. rewrite Hf. reflexivity.
Qed.

Lemma failed_retries_resend_same_envelope_witness :
  let st := state_after (onChange (js "Hello")) initial in
  let rs := [Rejected; Resolved {| status := 502; body := None |}; Rejected] in
  let st' := state_after (clicks study_page rs) st in
  input st' = input st /\
  turnId st' = turnId st /\
  chatSessionId st' = chatSessionId st /\
  loading st' = loading st /\
  messages st' =
    messages st ++ concat (repeat [userMessage (input st); errorMessage] (length rs)) /\
  filter is_fetch (effects_of (clicks study_page rs) st) =
    repeat (chat_request (input st) (turnId st)) (length rs).
Proof.
  intros st rs.
  apply (failed_retries_resend_same_envelope study_page rs st).
  - vm_compute. discriminate.
  - reflexivity.
Defined.

Lemma js_inj (s t : string) : js s = js t -> s = t.
Proof.
  unfold js. intros H.
  rewrite <- (string_of_list_ascii_of_string s), <- (string_of_list_ascii_of_string t).
  f_equal. revert H.
  generalize (list_ascii_of_string s) (list_ascii_of_string t).
  induction l as [|a l IH]; intros [|b l'] H; try discriminate; [reflexivity|].
  simpl in H. injection H as Hab Hl. f_equal; [|now apply IH].
  rewrite <- (ascii_N_embedding a), <- (ascii_N_embedding b). now rewrite Hab.
Qed.

Lemma toString_inj (n m : Z) : toString n = toString m -> n = m.
Proof.
  unfold toString. intros H. apply js_inj in H.
  apply DecimalZ.to_int_inj.
  assert (Hnn : forall z, Z.to_int z <> Decimal.Pos Decimal.Nil /\
                          Z.to_int z <> Decimal.Neg Decimal.Nil).
  { intros [|p|p]; simpl; split; try discriminate;
      intros [= E]; now apply (DecimalPos.Unsigned.to_uint_nonnil p). }
  assert (E : Some (Z.to_int n) = Some (Z.to_int m)).
  { rewrite <- (NilZero.isi (Z.to_int n)), <- (NilZero.isi (Z.to_int m));
      try apply Hnn. now rewrite H. }
  now injection E.
Qed.

Lemma NoDup_map_injective {A B : Type} (f : A -> B) (l : list A) :
  (forall x y, f x = f y -> x = y) -> NoDup l -> NoDup (map f l).
Proof.
  intros Hf. induction 1 as [|x l Hx _ IH]; simpl; constructor; [|exact IH].
  intros Hin. apply in_map_iff in Hin as (y & E & Hy).
  apply Hf in E. subst y. contradiction.
Qed.

Lemma exchanges_turns (env : Env) (l : list (jsstring * fetch_result)) :
  Forall (fun p => trim (fst p) <> [] /\ throws (snd p) = false) l ->
  forall st,
    sent_turns (effects_of (exchanges env l) st) =
      map (fun i => Str (toString (turnId st + Z.of_nat i))) (seq 0 (length l)).
Proof.
  induction 1 as [|[v r] l [Hv Hr] _ IH]; intros st.
  - reflexivity.
  - simpl in Hv, Hr. apply (returns_iff_value (js "response")) in Hr as [reply Hr].
    simpl exchanges.
    destruct (state_after_bind _ (fun _ => exchanges env l) _ _ _ _
                (exchange_ok env v r st reply Hv Hr)) as [_ ->].
    rewrite sent_turns_app, sent_turns_request, IH. simpl.
    rewrite Z.add_0_r. f_equal.
    rewrite <- seq_shift, map_map. apply map_ext. intros i.
    do 2 f_equal. lia.
Qed.

(** X11: exchanges run one after the other carry consecutive turn
    numbers. In a sequence of successful exchanges, each settled before
    the next is sent, the [client_turn_id]s sent are the decimal
    numerals of the counter at the start, that plus one, and so on; no
    two of them are equal. *)
Theorem successive_exchanges_have_distinct_turn_numbers
    (env : Env) (l : list (jsstring * fetch_result)) (st : State) :
  Forall (fun p => trim (fst p) <> [] /\ throws (snd p) = false) l ->
  sent_turns (effects_of (exchanges env l) st) =
    map (fun i => Str (toString (turnId st + Z.of_nat i))) (seq 0 (length l)) /\
  NoDup (sent_turns (effects_of (exchanges env l) st)).
Proof.
  intros H. rewrite (exchanges_turns env l H st). split; [reflexivity|].
  apply NoDup_map_injective; [|apply seq_NoDup].
  intros i j E. injection E as E. apply toString_inj in E. lia.
Qed.

Lemma successive_exchanges_have_distinct_turn_numbers_witness :
  let l := [(js "Hello",
             Resolved {| status := 200;
                         body := Some (Obj [(js "response", Str (js "Hi there!"))]) |});
            (js "How are you?",
             Resolved {| status := 200;
                         body := Some (Obj [(js "response", Str (js "Fine."))]) |})] in
  sent_turns (effects_of (exchanges study_page l) initial) =
    map (fun i => Str (toString (turnId initial + Z.of_nat i))) (seq 0 (length l)) /\
  NoDup (sent_turns (effects_of (exchanges study_page l) initial)).
Proof.
  intros l.
  apply (successive_exchanges_have_distinct_turn_numbers study_page l initial).
  repeat constructor; vm_compute; discriminate.
Defined.

(** ** The view *)

Lemma nodes_Element (tag : jsstring) (attrs : list (jsstring * attr)) (children : list node) :
  nodes (Element tag attrs children) = Element tag attrs children :: flat_map nodes children.
Proof. reflexivity. Qed.

Lemma nodes_Items (l : list node) : nodes (Items l) = Items l :: flat_map nodes l.
Proof. reflexivity. Qed.

Lemma nodes_Text (s : jsstring) : nodes (Text s) = [Text s].
Proof. reflexivity. Qed.

Lemma nodes_Expr (v : value) : nodes (Expr v) = [Expr v].
Proof. reflexivity. Qed.

Ltac view_nodes :=
  repeat (rewrite nodes_Element || rewrite nodes_Items || rewrite nodes_Text ||
          rewrite nodes_Expr || (progress (cbn [flat_map app])));
  rewrite <- ?app_assoc, ?app_nil_r; cbn [app].

Ltac eval_eqb :=
  repeat match goal with
  | |- context [JsString.eqb (js ?a) (js ?b)] =>
      let v := eval vm_compute in (JsString.eqb (js a) (js b)) in
      replace (JsString.eqb (js a) (js b)) with v by (vm_compute; reflexivity)
  end.

Lemma has_class_Element (c tag : jsstring) (attrs : list (jsstring * attr)) (children : list node) :
  has_class c (Element tag attrs children) =
    match attr_lookup (js "className") attrs with
    | Some (AStr s) => JsString.eqb s c
    | _ => false
    end.
Proof. reflexivity. Qed.

Lemma has_attr_Element (name tag : jsstring) (attrs : list (jsstring * attr)) (children : list node) :
  has_attr name (Element tag attrs children) =
    match attr_lookup name attrs with Some _ => true | None => false end.
Proof. reflexivity. Qed.

Lemma attr_lookup_cons (name k : jsstring) (a : attr) (rest : list (jsstring * attr)) :
  attr_lookup name ((k, a) :: rest) =
    if JsString.eqb k name then Some a else attr_lookup name rest.
Proof. reflexivity. Qed.

Lemma attr_lookup_nil (name : jsstring) : attr_lookup name [] = None.
Proof. reflexivity. Qed.

Lemma leaf_has_no_attr (name : jsstring) :
  (forall s, has_attr name (Text s) = false) /\
  (forall v, has_attr name (Expr v) = false) /\
  (forall l, has_attr name (Items l) = false) /\
  (forall s, has_class name (Text s) = false) /\
  (forall v, has_class name (Expr v) = false) /\
  (forall l, has_class name (Items l) = false).
Proof. repeat split. Qed.

Ltac row_filter :=
  repeat (rewrite has_class_Element || rewrite has_attr_Element ||
          rewrite attr_lookup_cons || rewrite attr_lookup_nil ||
          rewrite (proj1 (leaf_has_no_attr _)) ||
          rewrite (proj1 (proj2 (leaf_has_no_attr _))) ||
          rewrite (proj1 (proj2 (proj2 (leaf_has_no_attr _)))) ||
          rewrite (proj1 (proj2 (proj2 (proj2 (leaf_has_no_attr _))))) ||
          rewrite (proj1 (proj2 (proj2 (proj2 (proj2 (leaf_has_no_attr _)))))) ||
          rewrite (proj2 (proj2 (proj2 (proj2 (proj2 (leaf_has_no_attr _)))))) ||
          (progress eval_eqb) || (progress (cbv beta iota)) ||
          (progress (cbn [filter])) || rewrite filter_app).

Lemma filter_cons_true {A : Type} (p : A -> bool) (x : A) (l : list A) :
  p x = true -> filter p (x :: l) = x :: filter p l.
Proof. intros H. simpl. now rewrite H. Qed.

Lemma filter_cons_false {A : Type} (p : A -> bool) (x : A) (l : list A) :
  p x = false -> filter p (x :: l) = filter p l.
Proof. intros H. simpl. now rewrite H. Qed.

Lemma filter_nil_eq {A : Type} (p : A -> bool) : filter p [] = [].
Proof. reflexivity. Qed.

(** Filtering the nodes of a tree one node at a time; the test on a
    node whose attributes are literals is decided by computation. *)
Ltac view_filter :=
  repeat (rewrite filter_app || rewrite filter_nil_eq ||
          match goal with
          | |- context [filter ?p (?x :: ?l)] =>
              first [ rewrite (filter_cons_false p x l)
                        by (rewrite ?has_class_Element, ?has_attr_Element;
                            vm_compute; reflexivity)
                    | rewrite (filter_cons_true p x l)
                        by (rewrite ?has_class_Element, ?has_attr_Element;
                            vm_compute; reflexivity) ]
          end).

Lemma row_nodes (m : Message) (index : Z) :
  nodes (message_row m index) =
    [message_row m index;
     Element (js "div") [(js "className", AStr (js "avatar"))]
       [Expr (Str (if JsString.eqb (sender m) (js "user") then bust else robot))];
     Expr (Str (if JsString.eqb (sender m) (js "user") then bust else robot));
     Element (js "div") [(js "className", AStr (js "message"))] [Expr (text m)];
     Expr (text m)].
Proof. reflexivity. Qed.

Lemma rows_filter_none (p : node -> bool) :
  (forall m i, filter p (nodes (message_row m i)) = []) ->
  forall ms i, filter p (flat_map nodes (map_index message_row ms i)) = [].
Proof.
  intros H ms. induction ms as [|m ms IH]; intros i; [reflexivity|].
  cbn [map_index flat_map]. now rewrite filter_app, H, IH.
Qed.

Lemma rows_filter_rows (p : node -> bool) :
  (forall m i, filter p (nodes (message_row m i)) = [message_row m i]) ->
  forall ms i,
    filter p (flat_map nodes (map_index message_row ms i)) = map_index message_row ms i.
Proof.
  intros H ms. induction ms as [|m ms IH]; intros i; [reflexivity|].
  cbn [map_index flat_map]. now rewrite filter_app, H, IH.
Qed.

Lemma row_is_not_empty_state (m : Message) (i : Z) :
  filter (has_class (js "empty-state")) (nodes (message_row m i)) = [].
Proof.
  rewrite row_nodes. unfold message_row.
  assert (E : JsString.eqb (js "message " ++ sender m) (js "empty-state") = false).
  { apply eqb_neq. intros H. vm_compute in H. discriminate. }
  row_filter. rewrite E. row_filter. reflexivity.
Qed.

Lemma row_has_key (m : Message) (i : Z) :
  filter (has_attr (js "key")) (nodes (message_row m i)) = [message_row m i].
Proof.
  rewrite row_nodes. unfold message_row. row_filter. reflexivity.
Qed.

Lemma row_is_not_disabled (m : Message) (i : Z) :
  filter (has_attr (js "disabled")) (nodes (message_row m i)) = [].
Proof.
  rewrite row_nodes. unfold message_row. row_filter. reflexivity.
Qed.

Lemma length_map_index {A B : Type} (f : A -> Z -> B) (l : list A) (i : Z) :
  length (map_index f l i) = length l.
Proof.
  revert i. induction l as [|x l IH]; intros i; simpl; [reflexivity|]. now rewrite IH.
Qed.

Lemma nth_error_map_index {A B : Type} (f : A -> Z -> B) (l : list A) (i : Z) (n : nat) (x : A) :
  nth_error l n = Some x ->
  nth_error (map_index f l i) n = Some (f x (i + Z.of_nat n)).
Proof.
  revert i n. induction l as [|y l IH]; intros i [|n] H; try discriminate.
  - injection H as ->. simpl. now rewrite Z.add_0_r.
  - simpl in H. simpl nth_error. rewrite (IH (i + 1) n H). do 2 f_equal. lia.
Qed.

Lemma nonempty_length {A : Type} (x : A) (l : list A) :
  (Z.of_nat (length (x :: l)) =? 0) = false.
Proof. apply Z.eqb_neq. simpl length. lia. Qed.

Lemma blank_test_bool (s : jsstring) :
  JsString.eqb (trim s) (js "") = whitespace_only s.
Proof.
  destruct (whitespace_only s) eqn:E.
  - now apply blank_test.
  - apply eqb_neq. intros H. apply trim_nil in H. congruence.
Qed.

(** X12: the greeting is shown exactly while the transcript is empty.
    The element of class ["empty-state"] is in the view when there is no
    Message and absent when there is one; and since no execution removes
    a Message, once a Message has been shown the greeting never comes
    back. *)
Theorem greeting_shown_iff_transcript_empty (env : Env) (st : State) :
  (messages st = [] ->
   by_class (js "empty-state") (App env st) =
     [Element (js "div") [(js "className", AStr (js "empty-state"))]
        [Element (js "h2") [] [Text (js "How can I help you today?")]]]) /\
  (messages st <> [] -> by_class (js "empty-state") (App env st) = []) /\
  (messages st <> [] ->
   forall actions,
     by_class (js "empty-state") (App env (state_after (run env actions) st)) = []).
Proof.
  assert (Hne : forall s, messages s <> [] -> by_class (js "empty-state") (App env s) = []).
  { intros s H. unfold by_class, App.
    destruct (messages s) as [|m ms] eqn:E; [contradiction|].
    rewrite nonempty_length. view_nodes. view_filter.
    rewrite (rows_filter_none _ row_is_not_empty_state). reflexivity. }
  split; [|split].
  - intros E. unfold by_class, App. rewrite E.
    change (Z.of_nat (length (@nil Message)) =? 0) with true.
    cbn [map_index]. view_nodes. view_filter. reflexivity.
  - apply Hne.
  - intros H actions. apply Hne.
    destruct (run_messages env actions st) as [suffix ->].
    intros E. apply app_eq_nil in E as [E _]. contradiction.
Qed.

Lemma greeting_shown_iff_transcript_empty_witness :
  by_class (js "empty-state") (App study_page initial) =
    [Element (js "div") [(js "className", AStr (js "empty-state"))]
       [Element (js "h2") [] [Text (js "How can I help you today?")]]] /\
  by_class (js "empty-state")
    (App study_page (state_after (exchange study_page (js "Hello") Rejected) initial)) = [].
Proof.
  split.
  - apply (proj1 (greeting_shown_iff_transcript_empty study_page initial)).
    reflexivity.
  - apply (proj1 (proj2 (greeting_shown_iff_transcript_empty study_page
                           (state_after (exchange study_page (js "Hello") Rejected) initial)))).
    vm_compute. discriminate.
Defined.

(** X13: the view shows the text field and the transcript, nothing
    else. Two states with the same pending text and the same Messages
    are drawn alike, whatever their turn counter, session identifier and
    loading flag and whatever the page URL; in particular the view after
    session start is the view before it, whether the start succeeded or
    failed. *)
Theorem view_depends_on_text_and_transcript_only
    (env env' : Env) (st st' : State) :
  (input st = input st' -> messages st = messages st' -> App env st = App env' st') /\
  (forall r, App env (state_after (startSession env r) st) = App env st).
Proof.
  split.
  - intros Hi Hm. unfold App. rewrite Hi, Hm. reflexivity.
  - intros r. unfold App, state_after, exec. rewrite startSession_spec.
    destruct (property_of _ r); reflexivity.
Qed.

Lemma view_depends_on_text_and_transcript_only_witness :
  App study_page initial =
  App {| location_search := [] |}
      {| input := js ""; messages := []; turnId := 7;
         chatSessionId := Str (js "abc123"); loading := false |}.
Proof.
  apply (proj1 (view_depends_on_text_and_transcript_only study_page
                  {| location_search := [] |} initial
                  {| input := js ""; messages := []; turnId := 7;
                     chatSessionId := Str (js "abc123"); loading := false |}));
    reflexivity.
Defined.

(** X14: the send button is disabled exactly when pressing it would do
    nothing. The only element with a [disabled] attribute is the send
    button; the attribute is true exactly when the pending text is blank,
    which is exactly when [changeEvent] leaves the state as it is and
    has no effect. After a successful exchange the button is disabled
    again; after a failed one it stays enabled. *)
Theorem send_button_disabled_iff_noop (env : Env) (st : State) :
  filter (has_attr (js "disabled")) (nodes (App env st)) =
    [Element (js "button")
       [(js "disabled", ABool (whitespace_only (input st)));
        (js "onClick", OnClick Click)]
       [Text arrow]] /\
  (whitespace_only (input st) = true <->
   forall r, exec (changeEvent env r) st = (st, [])) /\
  (forall r, trim (input st) <> [] -> throws r = false ->
     whitespace_only (input (state_after (changeEvent env r) st)) = true) /\
  (forall r, trim (input st) <> [] -> throws r = true ->
     whitespace_only (input (state_after (changeEvent env r) st)) = false).
Proof.
  split; [|split; [|split]].
  - unfold App. rewrite blank_test_bool.
    destruct (messages st) as [|m ms].
    + change (Z.of_nat (length (@nil Message)) =? 0) with true.
      cbn [map_index]. view_nodes. view_filter. reflexivity.
    + rewrite nonempty_length. view_nodes. view_filter.
      rewrite (rows_filter_none _ row_is_not_disabled). reflexivity.
  - split.
    + intros H r. apply trim_nil in H. unfold exec.
      now rewrite (changeEvent_blank env r st H).
    + intros H. destruct (blank_or_not (input st)) as [E|E]; [now apply trim_nil|].
      specialize (H Rejected). unfold exec in H.
      rewrite (changeEvent_throw env Rejected st NetworkError E eq_refl) in H.
      discriminate H.
  - intros r E Hr. apply (returns_iff_value (js "response")) in Hr as [reply Hr].
    unfold state_after, exec. rewrite (changeEvent_ok env r st reply E Hr). reflexivity.
  - intros r E Hr. apply (throws_iff_error (js "response")) in Hr as [e Hr].
    unfold state_after, exec. rewrite (changeEvent_throw env r st e E Hr). simpl.
    destruct (whitespace_only (input st)) eqn:W; [|reflexivity].
    apply trim_nil in W. contradiction.
Qed.

Lemma send_button_disabled_iff_noop_witness :
  let st := state_after (onChange (js "Hello")) initial in
  let r := Resolved {| status := 200;
                       body := Some (Obj [(js "response", Str (js "Hi there!"))]) |} in
  whitespace_only (input (state_after (changeEvent study_page r) st)) = true.
Proof.
  intros st r.
  apply (proj1 (proj2 (proj2 (send_button_disabled_iff_noop study_page st))) r).
  - vm_compute. discriminate.
  - reflexivity.
Defined.

(** X15: one row per Message. The elements of the view that carry a
    [key] are the rows of the chat box: as many as there are Messages,
    in transcript order; row number [i] is keyed [i], has the class
    ["message "] followed by the sender, shows the text of Message [i],
    and shows the bust for a user Message and the robot for any other,
    the error notice included. *)
Theorem one_row_per_message (env : Env) (st : State) :
  let rows := filter (has_attr (js "key")) (nodes (App env st)) in
  length rows = length (messages st) /\
  forall (i : nat) (m : Message),
    nth_error (messages st) i = Some m ->
    nth_error rows i =
      Some (Element (js "div")
              [(js "key", ANum (Z.of_nat i));
               (js "className", AStr (js "message " ++ sender m))]
              [Element (js "div") [(js "className", AStr (js "avatar"))]
                 [Expr (Str (if JsString.eqb (sender m) (js "user") then bust else robot))];
               Element (js "div") [(js "className", AStr (js "message"))]
                 [Expr (text m)]]).
Proof.
  intros rows.
  assert (E : rows = map_index message_row (messages st) 0).
  { unfold rows, App. destruct (messages st) as [|m ms].
    - change (Z.of_nat (length (@nil Message)) =? 0) with true.
      cbn [map_index]. view_nodes. view_filter. reflexivity.
    - rewrite nonempty_length. view_nodes. view_filter.
      rewrite (rows_filter_rows _ row_has_key). now rewrite app_nil_r. }
  rewrite E. split.
  - apply length_map_index.
  - intros i m H. rewrite (nth_error_map_index message_row _ 0 i m H). reflexivity.
Qed.

Lemma one_row_per_message_witness :
  let st := state_after (exchange study_page (js "Hello") Rejected) initial in
  nth_error (filter (has_attr (js "key")) (nodes (App study_page st))) 1 =
    Some (Element (js "div")
            [(js "key", ANum (Z.of_nat 1));
             (js "className", AStr (js "message " ++ sender errorMessage))]
            [Element (js "div") [(js "className", AStr (js "avatar"))]
               [Expr (Str (if JsString.eqb (sender errorMessage) (js "user")
                           then bust else robot))];
             Element (js "div") [(js "className", AStr (js "message"))]
               [Expr (text errorMessage)]]).
Proof.
  intros st.
  apply (proj2 (one_row_per_message study_page st) 1%nat errorMessage).
  reflexivity.
Defined.

(** ** Earlier revisions *)

(** X16: with a backend that answers ["I am a bot!"], the networked
    client behaves as the first revision did. Typing a text and sending
    it leaves the same pending text and the same transcript as the local
    [changeEvent] of the first revision, blank texts included. *)
Theorem networked_exchange_refines_stub
    (env : Env) (v : jsstring) (r : fetch_result) (st : State) :
  property_of (js "response") r = Ok (Str (js "I am a bot!")) ->
  to_stub (state_after (exchange env v r) st) =
    Stub.changeEvent {| Stub.input := v; Stub.messages := messages st |}.
Proof.
  intros Hr. unfold state_after, exec, Stub.changeEvent. rewrite exchange_unfold.
  cbn [Stub.input Stub.messages].
  set (typed := {| input := v;
                   messages := messages st;
                   turnId := turnId st;
                   chatSessionId := chatSessionId st;
                   loading := loading st |}).
  destruct (blank_or_not v) as [E|E].
  - rewrite (changeEvent_blank env r typed E).
    replace (JsString.eqb (trim v) (js "")) with true
      by (symmetry; now apply eqb_eq).
    reflexivity.
  - rewrite (changeEvent_ok env r typed _ E Hr), (nonblank_test v E). reflexivity.
Qed.

Lemma networked_exchange_refines_stub_witness :
  let r := Resolved {| status := 200;
                       body := Some (Obj [(js "response", Str (js "I am a bot!"))]) |} in
  to_stub (state_after (exchange study_page (js "Hello") r) initial) =
    Stub.changeEvent {| Stub.input := js "Hello"; Stub.messages := messages initial |}.
Proof.
  intros r.
  apply (networked_exchange_refines_stub study_page (js "Hello") r initial).
  reflexivity.
Defined.

(** X17: [handleSend] of the web page has no guard of its own. It
    appends a user Message and the bot Message for every text, so the
    transcript grows by two each time; it produces the transcript of the
    first revision's [changeEvent] exactly when the text is not blank. *)
Theorem handleSend_appends_for_every_text (text : jsstring) (ms : list Message) :
  length (Web.handleSend text ms) = (length ms + 2)%nat /\
  (Stub.messages (Stub.changeEvent {| Stub.input := text; Stub.messages := ms |}) =
     Web.handleSend text ms
   <-> trim text <> []).
Proof.
  unfold Web.handleSend, Stub.changeEvent. cbn [Stub.input Stub.messages].
  split.
  - rewrite length_app. reflexivity.
  - destruct (blank_or_not text) as [E|E].
    + replace (JsString.eqb (trim text) (js "")) with true
        by (symmetry; now apply eqb_eq).
      cbn [Stub.messages]. split; [|contradiction].
      intros H. apply (f_equal (@length Message)) in H.
      rewrite length_app in H. simpl in H. lia.
    + rewrite (nonblank_test text E). cbn [Stub.messages]. split; [auto|reflexivity].
Qed.

Lemma handleSend_appends_for_every_text_witness :
  Stub.messages (Stub.changeEvent {| Stub.input := js "Hello"; Stub.messages := [] |}) =
    Web.handleSend (js "Hello") [].
Proof.
  apply (proj2 (proj2 (handleSend_appends_for_every_text (js "Hello") []))).
  vm_compute. discriminate.
Defined.
